(** * KITTI sample encoding pipeline (smoke/data/datasets/kitti.py)

    A shallow embedding of [KITTIDataset]: the calibration and annotation
    loader ([load_annotations]) and the per-sample pipeline ([__getitem__]:
    view selection, flip, shift/scale jitter, mosaic composition, target
    assembly).

    Conventions of the embedding.
    - Python floats and numpy float32 values are exact rationals ([Q]);
      rounding is outside the model.
    - Exceptions are values of [exn]; a computation that can raise returns
      a [result].
    - [random] and the file system are explicit: a computation of type
      [M A] threads the position in the stream of random draws and the log
      of the files it opened.
    - The debug picture (lines 170-172, 233 and 256) is written to disk
      and never read back; it is outside the model.
    - The functions imported from [smoke.modeling] are fields of the class
      [Externals]; the pipeline is generic in them. *)

From Stdlib Require Import ZArith QArith Qround Qminmax.
From Stdlib Require Import String Ascii List Bool Lia Lqa.
From Stdlib Require Import Decimal DecimalString DecimalNat.
From stdpp Require Import base option list sorting.
Import ListNotations.

Local Open Scope Z_scope.
Local Open Scope Q_scope.
Local Open Scope list_scope.

(** ** Numbers *)

(** [x < y] on floats, as a boolean. *)
Definition Qltb (x y : Q) : bool := negb (Qle_bool y x).

(** [int(x)] and [astype(np.int32)]: truncation toward zero. *)
Definition Qtrunc (x : Q) : Z := Z.quot (Qnum x) (Zpos (Qden x)).

(** [x.clip(lo, hi)] = [minimum(maximum(x, lo), hi)]. *)
Definition Qclip (lo hi x : Q) : Q := Qmin (Qmax x lo) hi.

(** [np.arange(start, stop, step)]: [ceil((stop - start) / step)] values. *)
Definition arange (start stop step : Q) : list Q :=
  let n := Z.to_nat (Qceiling ((stop - start) / step)) in
  List.map (fun k => start + inject_Z (Z.of_nat k) * step) (seq 0 n).

Definition Vec2 : Type := Q * Q.
Definition Mat : Type := list (list Q).

(** [M[r, c]] for reading and [M[r, c] = v] for writing, inside the shape. *)
Definition mat_get (m : Mat) (r c : nat) : Q :=
  match m !! r with
  | Some row => match row !! c with Some v => v | None => 0 end
  | None => 0
  end.

Definition mat_set (m : Mat) (r c : nat) (v : Q) : Mat :=
  match m !! r with
  | Some row => <[r := <[c := v]> row]> m
  | None => m
  end.

(** The flip transform [c -> width - c - 1] (lines 116 and 117). *)
Definition flip_coord (width c : Q) : Q := width - c - 1.

(** ** Exceptions *)

Inductive exn : Type :=
| IndexError | KeyError | ValueError | TypeError | UnboundLocalError
| OSError | ZeroDivisionError.

Inductive result (A : Type) : Type :=
| Ok (a : A)
| Raise (e : exn).
Arguments Ok {A} a.
Arguments Raise {A} e.

Definition rbind {A B} (r : result A) (k : A -> result B) : result B :=
  match r with
  | Ok a => k a
  | Raise e => Raise e
  end.

Declare Scope result_scope.
Delimit Scope result_scope with result.
Notation "x <~ r ;; k" := (rbind r (fun x => k))
  (at level 20, r at level 99, k at level 200, only parsing) : result_scope.
Notation "' pat <~ r ;; k" :=
  (rbind r (fun x => match x with pat => k end))
  (at level 20, pat pattern, r at level 99, k at level 200, only parsing)
  : result_scope.

(** [l[i]] on a Python list or numpy array with [0 <= i]. *)
Definition get_item {A} (l : list A) (i : nat) : result A :=
  match l !! i with
  | Some x => Ok x
  | None => Raise IndexError
  end.

(** [arr[i] = v] on a numpy array with [0 <= i]: raises out of range. *)
Definition set_item {A} (l : list A) (i : nat) (v : A) : result (list A) :=
  if (i <? length l)%nat then Ok (<[i := v]> l) else Raise IndexError.

(** ** Directories of the dataset *)

Inductive Dir : Type :=
| image_dir | image3_dir | label_dir | calib_dir | imagesets_dir.

(** ** Images *)

(** An image is its file, its size and the operations applied to it; the
    pixels themselves are never read by the target assembly. *)
Inductive ImageOp : Type :=
| FlipLeftRight
| PasteRightOf (d : Dir) (name : string) (x : Z)
| RandomGaussian
| RandomColor
| AffineResample (m : Mat).

Record Image : Type := {
  img_dir : Dir;
  img_name : string;
  img_size : Z * Z;
  img_ops : list ImageOp
}.

Definition apply_op (op : ImageOp) (im : Image) : Image :=
  {| img_dir := img_dir im; img_name := img_name im;
     img_size := img_size im; img_ops := img_ops im ++ [op] |}.

Definition resized (wh : Z * Z) (im : Image) : Image :=
  {| img_dir := img_dir im; img_name := img_name im;
     img_size := wh; img_ops := img_ops im |}.

(** ** The world: files and random draws *)

Inductive Event : Type := Opened (d : Dir) (name : string).

(** A text file is given by the rows [csv.reader] yields for it (fields
    split at the single-space delimiter); an image by its size
    [(width, height)].  [None]: the file cannot be opened. *)
Record Env : Type := {
  csv_rows : Dir -> string -> option (list (list string));
  (** the lines of a text file, each with its newline *)
  text_lines : Dir -> string -> option (list string);
  image_size_at : Dir -> string -> option (Z * Z);
  (** the [k]-th number returned by [random.random()], in [0, 1) *)
  rand_unit : nat -> Q;
  (** the [k]-th raw integer behind [random.choice] *)
  rand_int : nat -> nat
}.

Record State : Type := {
  rng_pos : nat;
  opened : list Event
}.

Definition M (A : Type) : Type := State -> result A * State.

Definition ret {A} (a : A) : M A := fun s => (Ok a, s).
Definition raise {A} (e : exn) : M A := fun s => (Raise e, s).
Definition bind {A B} (m : M A) (k : A -> M B) : M B :=
  fun s => match m s with
           | (Ok a, s') => k a s'
           | (Raise e, s') => (Raise e, s')
           end.
Definition lift {A} (r : result A) : M A := fun s => (r, s).

Declare Scope eff_scope.
Delimit Scope eff_scope with eff.
Notation "x <- m ;; k" := (bind m (fun x => k))
  (at level 20, m at level 99, k at level 200, only parsing) : eff_scope.
Notation "' pat <- m ;; k" :=
  (bind m (fun x => match x with pat => k end))
  (at level 20, pat pattern, m at level 99, k at level 200, only parsing)
  : eff_scope.

Definition next_draw (s : State) : State :=
  {| rng_pos := S (rng_pos s); opened := opened s |}.

Definition log_open (d : Dir) (name : string) (s : State) : State :=
  {| rng_pos := rng_pos s; opened := opened s ++ [Opened d name] |}.

Section World.
Context (env : Env).

(** [random.random()] *)
Definition random : M Q :=
  fun s => (Ok (rand_unit env (rng_pos s)), next_draw s).

(** [random.uniform(a, b)] = [a + (b - a) * random()] *)
Definition uniform (a b : Q) : M Q :=
  fun s => (Ok (a + (b - a) * rand_unit env (rng_pos s)), next_draw s).

(** [random.choice(seq)]: [seq[randbelow(len(seq))]], [IndexError] on an
    empty sequence. *)
Definition choice {A} (l : list A) : M A :=
  fun s => (get_item l (rand_int env (rng_pos s) mod length l)%nat,
            next_draw s).

(** [open(os.path.join(dir, name), 'r')] read through [csv]. *)
Definition open_csv (d : Dir) (name : string) : M (list (list string)) :=
  fun s => match csv_rows env d name with
           | Some rows => (Ok rows, log_open d name s)
           | None => (Raise OSError, log_open d name s)
           end.

(** [open(os.path.join(dir, name), "r")] iterated line by line. *)
Definition open_lines (d : Dir) (name : string) : M (list string) :=
  fun s => match text_lines env d name with
           | Some ls => (Ok ls, log_open d name s)
           | None => (Raise OSError, log_open d name s)
           end.

(** [Image.open(os.path.join(dir, name))] *)
Definition Image_open (d : Dir) (name : string) : M Image :=
  fun s => match image_size_at env d name with
           | Some wh => (Ok {| img_dir := d; img_name := name;
                               img_size := wh; img_ops := [] |},
                         log_open d name s)
           | None => (Raise OSError, log_open d name s)
           end.
End World.

(** ** Collaborators of the module *)

(** Python's [float] on text, and the functions imported from
    [smoke.modeling.heatmap_coder] and [smoke.modeling.smoke_coder]. *)
Class Externals : Type := {
  (** [float(text)]; [None]: the text is malformed ([ValueError]) *)
  float_of_str : string -> option Q;
  (** [get_transfrom_matrix([center, size], [width, height])] *)
  get_transfrom_matrix : Vec2 * Vec2 -> Z * Z -> Mat;
  (** [affine_transform(point, matrix)] *)
  affine_transform : Vec2 -> Mat -> Vec2;
  (** [encode_label(P, rot_y, dimensions, locations)]: the keypoint, the
      2D box as its two corners, the 3D box *)
  encode_label : Mat -> Q -> list Q -> list Q -> Vec2 * (Vec2 * Vec2) * Mat;
  (** [gaussian_radius(h, w)] *)
  gaussian_radius : Q -> Q -> Q;
  (** [draw_umich_gaussian(heatmap, center, radius)] *)
  draw_umich_gaussian : Mat -> Z * Z -> Z -> Mat
}.

(** ** Targets: [ParamsList], a container of named fields *)

Inductive Field : Type :=
| FMatrix (m : Mat)
| FMatrices (ms : list Mat)
| FInts (ns : list nat)
| FPoints (ps : list (Z * Z))
| FVectors (vs : list (list Q))
| FVec2s (vs : list Vec2)
| FBoxes (bs : list (Vec2 * Vec2))
| FScalars (xs : list Q).

Record ParamsList : Type := {
  image_size : Vec2;
  pl_is_train : bool;
  extra_fields : list (string * Field)
}.

Definition add_field (name : string) (v : Field) (t : ParamsList)
    : ParamsList :=
  {| image_size := image_size t; pl_is_train := pl_is_train t;
     extra_fields :=
       List.filter (fun kv => negb (String.eqb (fst kv) name)) (extra_fields t)
       ++ [(name, v)] |}.

Fixpoint assoc (name : string) (kvs : list (string * Field)) : option Field :=
  match kvs with
  | [] => None
  | (k, v) :: rest => if String.eqb k name then Some v else assoc name rest
  end.

Definition get_field (name : string) (t : ParamsList) : option Field :=
  assoc name (extra_fields t).

(** ** Annotations and the dataset object *)

Record Annotation : Type := {
  a_class : string;
  a_label : nat;
  a_truncation : Q;
  a_occlusion : Q;
  a_alpha : Q;
  a_dimensions : list Q;
  a_locations : list Q;
  a_rot_y : Q
}.

Definition TYPE_ID_CONVERSION : list (string * nat) :=
  [("Car"%string, 0%nat); ("Cyclist"%string, 1%nat);
   ("Pedestrian"%string, 2%nat)].

Fixpoint dict_get {V} (key : string) (d : list (string * V)) : result V :=
  match d with
  | [] => Raise KeyError
  | (k, v) :: rest => if String.eqb k key then Ok v else dict_get key rest
  end.

(** The attributes [__init__] sets on [self]. *)
Record KITTIDataset : Type := {
  is_train : bool;
  transforms : option (Image -> ParamsList -> Image * ParamsList);
  image_files : list string;
  label_files : list string;
  num_samples : nat;
  classes : list string;
  flip_prob : Q;
  aug_prob : Q;
  gaussian_prob : Q;
  color_prob : Q;
  shift_scale : Q * Q;
  right_prob : Q;
  mosaic_prob : Q;
  num_classes : nat;
  input_width : Z;
  input_height : Z;
  output_width : Z;
  output_height : Z;
  max_objs : nat
}.

(** ** [__init__] *)

Record Cfg : Type := {
  TRAIN_SPLIT : string;
  TEST_SPLIT : string;
  DETECT_CLASSES : list string;
  FLIP_PROB_TRAIN : Q;
  SHIFT_SCALE_PROB_TRAIN : Q;
  GAUSSIAN_NOISE_PROB_TRAIN : Q;
  COLOR_CHANGE_PROB_TRAIN : Q;
  SHIFT_SCALE_TRAIN : Q * Q;
  USE_RIGHT_PROB_TRAIN : Q;
  MOSAIC_PROB_TRAIN : Q;
  WIDTH_TRAIN : Z;
  HEIGHT_TRAIN : Z;
  DOWN_RATIO : Z;
  MAX_OBJECTS : nat
}.

(** [s.replace(old, new)] for a non-empty [old]; [skip] characters of a
    match just replaced are still to be passed over. *)
Fixpoint replace_from (old new : string) (skip : nat) (s : string) : string :=
  match s with
  | EmptyString => EmptyString
  | String c rest =>
      match skip with
      | S k => replace_from old new k rest
      | O =>
          if String.prefix old s
          then String.append new
                 (replace_from old new (String.length old - 1) rest)
          else String c (replace_from old new 0 rest)
      end
  end.

Definition replace (old new s : string) : string := replace_from old new 0 s.

Definition newline : string := String (ascii_of_nat 10) EmptyString.

(** [a // b] *)
Definition floordiv (a b : Z) : result Z :=
  if (b =? 0)%Z then Raise ZeroDivisionError else Ok (a / b)%Z.

Section Init.
Context (env : Env).
Local Open Scope eff_scope.

Definition init (cfg : Cfg) (train : bool)
    (hook : option (Image -> ParamsList -> Image * ParamsList))
    : M KITTIDataset :=
  let split := if train then TRAIN_SPLIT cfg else TEST_SPLIT cfg in
  imageset_txt <-
    (if String.eqb split "train" then ret "train.txt"%string
     else if String.eqb split "val" then ret "val.txt"%string
     else if String.eqb split "trainval" then ret "trainval.txt"%string
     else if String.eqb split "test" then ret "test.txt"%string
     else raise ValueError) ;;
  lines <- open_lines env imagesets_dir imageset_txt ;;
  let files :=
    List.map
      (fun line => String.append (replace newline EmptyString line) ".png")
             lines in
  ow <- lift (floordiv (WIDTH_TRAIN cfg) (DOWN_RATIO cfg)) ;;
  oh <- lift (floordiv (HEIGHT_TRAIN cfg) (DOWN_RATIO cfg)) ;;
  ret {| is_train := train;
         transforms := hook;
         image_files := files;
         label_files := List.map (replace ".png" ".txt") files;
         num_samples := length files;
         classes := DETECT_CLASSES cfg;
         flip_prob := if train then FLIP_PROB_TRAIN cfg else 0;
         aug_prob := if train then SHIFT_SCALE_PROB_TRAIN cfg else 0;
         gaussian_prob := if train then GAUSSIAN_NOISE_PROB_TRAIN cfg else 0;
         color_prob := if train then COLOR_CHANGE_PROB_TRAIN cfg else 0;
         shift_scale := SHIFT_SCALE_TRAIN cfg;
         right_prob := if train then USE_RIGHT_PROB_TRAIN cfg else 0;
         mosaic_prob := if train then MOSAIC_PROB_TRAIN cfg else 0;
         num_classes := length (DETECT_CLASSES cfg);
         input_width := WIDTH_TRAIN cfg;
         input_height := HEIGHT_TRAIN cfg;
         output_width := ow;
         output_height := oh;
         max_objs := MAX_OBJECTS cfg |}.
End Init.

(** ** [load_annotations] (lines 283-319) *)

Definition fieldnames : list string :=
  ["type"; "truncated"; "occluded"; "alpha"; "xmin"; "ymin"; "xmax"; "ymax";
   "dh"; "dw"; "dl"; "lx"; "ly"; "lz"; "ry"]%string.

Fixpoint index_of (name : string) (names : list string) : option nat :=
  match names with
  | [] => None
  | n :: rest =>
      if String.eqb n name then Some 0%nat
      else match index_of name rest with
           | Some k => Some (S k)
           | None => None
           end
  end.

(** [row[name]] on a row of [csv.DictReader]: the field at the position of
    [name] in [fieldnames], [None] (Python's [None]) when the line is too
    short. *)
Definition row_field (row : list string) (name : string) : option string :=
  match index_of name fieldnames with
  | Some k => row !! k
  | None => None
  end.

Section Loader.
Context {X : Externals} (env : Env).
Local Open Scope result_scope.

(** [float(v)]: [TypeError] on [None], [ValueError] on malformed text. *)
Definition py_float (v : option string) : result Q :=
  match v with
  | None => Raise TypeError
  | Some text =>
      match float_of_str text with
      | Some q => Ok q
      | None => Raise ValueError
      end
  end.

(** [[float(i) for i in row]] *)
Fixpoint floats (fields : list string) : result (list Q) :=
  match fields with
  | [] => Ok []
  | f :: rest =>
      q <~ py_float (Some f) ;;
      qs <~ floats rest ;;
      Ok (q :: qs)
  end.

(** [np.array(values).reshape(3, 4)] *)
Definition reshape_3_4 (values : list Q) : result Mat :=
  match values with
  | [a; b; c; d; e; f; g; h; i; j; k; l] =>
      Ok [[a; b; c; d]; [e; f; g; h]; [i; j; k; l]]
  | _ => Raise ValueError
  end.

Definition parse_matrix (fields : list string) : result Mat :=
  values <~ floats fields ;;
  reshape_3_4 values.

(** The dictionary appended for one row of a detectable class
    (lines 295-304), its entries evaluated in order. *)
Definition parse_annotation (row : list string) (type : string)
    : result Annotation :=
  label <~ dict_get type TYPE_ID_CONVERSION ;;
  truncated <~ py_float (row_field row "truncated") ;;
  occluded <~ py_float (row_field row "occluded") ;;
  alpha <~ py_float (row_field row "alpha") ;;
  dl <~ py_float (row_field row "dl") ;;
  dh <~ py_float (row_field row "dh") ;;
  dw <~ py_float (row_field row "dw") ;;
  lx <~ py_float (row_field row "lx") ;;
  ly <~ py_float (row_field row "ly") ;;
  lz <~ py_float (row_field row "lz") ;;
  ry <~ py_float (row_field row "ry") ;;
  Ok {| a_class := type; a_label := label;
        a_truncation := truncated; a_occlusion := occluded;
        a_alpha := alpha;
        a_dimensions := [dl; dh; dw];
        a_locations := [lx; ly; lz];
        a_rot_y := ry |}.

(** The loop over the rows of the label file (lines 293-304);
    [DictReader] passes over empty rows. *)
Fixpoint read_annotations (detect : list string)
    (rows : list (list string)) : result (list Annotation) :=
  match rows with
  | [] => Ok []
  | [] :: rest => read_annotations detect rest
  | (type :: _) as row :: rest =>
      if existsb (String.eqb type) detect then
        a <~ parse_annotation row type ;;
        anns <~ read_annotations detect rest ;;
        Ok (a :: anns)
      else read_annotations detect rest
  end.

(** The loop over the rows of the calibration file (lines 308-318):
    [P2] and [P3] are bound when their row is met, the loop ends at the
    [P3] row. *)
Fixpoint read_calib (rows : list (list string)) (P2 P3 : option Mat)
    : result (option Mat * option Mat) :=
  match rows with
  | [] => Ok (P2, P3)
  | row :: rest =>
      head <~ get_item row 0 ;;
      if String.eqb head "P2:" then
        m <~ parse_matrix (List.tl row) ;;
        read_calib rest (Some m) P3
      else if String.eqb head "P3:" then
        m <~ parse_matrix (List.tl row) ;;
        Ok (P2, Some m)
      else read_calib rest P2 P3
  end.

(** [return annotations, P2, P3]: a name never bound raises. *)
Definition bound_matrices (r : option Mat * option Mat)
    : result (Mat * Mat) :=
  match r with
  | (Some P2, Some P3) => Ok (P2, P3)
  | _ => Raise UnboundLocalError
  end.

Local Open Scope eff_scope.

Definition load_annotations (self : KITTIDataset) (idx : nat)
    : M (list Annotation * Mat * Mat) :=
  file_name <- lift (get_item (label_files self) idx) ;;
  annotations <-
    (if is_train self then
       rows <- open_csv env label_dir file_name ;;
       lift (read_annotations (classes self) rows)
     else ret []) ;;
  rows <- open_csv env calib_dir file_name ;;
  calib <- lift (read_calib rows None None) ;;
  '(P2, P3) <- lift (bound_matrices calib) ;;
  ret (annotations, P2, P3).
End Loader.

(** ** [__getitem__]: the local variables *)

(** A region of the output grid: [[x_min, x_max, y_min, y_max]]. *)
Definition Region : Type := (Q * Q * Q * Q)%type.

(** The calibration arrays are numpy objects shared between names: [P],
    [P_list[0]] and [P2] (or [P3]) are one array.  They live in [arrays],
    and the names hold positions in it. *)
Record Locals : Type := {
  original_idx : string;
  use_left : bool;
  flipped : bool;
  affine : bool;
  center : Vec2;
  size : Vec2;
  img : Image;
  arrays : list Mat;
  P : nat;
  P_list : list nat;
  anns_list : list (list Annotation);
  region_list : list Region
}.

Definition array_at (heap : list Mat) (ref : nat) : Mat :=
  match heap !! ref with
  | Some m => m
  | None => []
  end.

Definition Qof (z : Z) : Q := inject_Z z.

Section Augmentation.
Context {X : Externals} (env : Env) (self : KITTIDataset).
Local Open Scope eff_scope.

(** [(self.is_train) and (random.random() < prob)]: the draw is made
    only in training. *)
Definition train_draw (prob : Q) : M bool :=
  if is_train self then
    u <- random env ;;
    ret (Qltb u prob)
  else ret false.

(** Lines 86-106: annotations, view selection, image, center and size. *)
Definition select_view (idx : nat) : M Locals :=
  label_name <- lift (get_item (label_files self) idx) ;;
  '(anns, P2, P3) <- load_annotations env self idx ;;
  right <- train_draw (right_prob self) ;;
  image_name <- lift (get_item (image_files self) idx) ;;
  im <- Image_open env (if right then image3_dir else image_dir) image_name ;;
  let '(w, h) := img_size im in
  ret {| original_idx := replace ".txt" EmptyString label_name;
         use_left := negb right;
         flipped := false;
         affine := false;
         center := (Qof w / 2, Qof h / 2);
         size := (Qof w, Qof h);
         img := im;
         arrays := [P2; P3];
         P := if right then 1%nat else 0%nat;
         P_list := [if right then 1%nat else 0%nat];
         anns_list := [anns];
         region_list :=
           [(0, Qof (output_width self), 0, Qof (output_height self))] |}.

(** Lines 112-117: horizontal flip. *)
Definition flip_step (L : Locals) : M Locals :=
  hit <- train_draw (flip_prob self) ;;
  if hit && use_left L then
    let Pm := array_at (arrays L) (P L) in
    ret {| original_idx := original_idx L;
           use_left := use_left L;
           flipped := true;
           affine := affine L;
           center := (flip_coord (fst (size L)) (fst (center L)),
                      snd (center L));
           size := size L;
           img := apply_op FlipLeftRight (img L);
           arrays :=
             <[P L := mat_set Pm 0 2
                        (flip_coord (fst (size L)) (mat_get Pm 0 2))]>
               (arrays L);
           P := P L;
           P_list := P_list L;
           anns_list := anns_list L;
           region_list := region_list L |}
  else ret L.

(** Lines 119-128: shift and scale jitter. *)
Definition jitter_step (L : Locals) : M Locals :=
  hit <- train_draw (aug_prob self) ;;
  if hit then
    let '(shift, scale) := shift_scale self in
    let shift_ranges := arange (- shift) (shift + (1 # 10)) (1 # 10) in
    dx <- choice env shift_ranges ;;
    dy <- choice env shift_ranges ;;
    let scale_ranges := arange (1 - scale) (1 + scale + (1 # 10)) (1 # 10) in
    k <- choice env scale_ranges ;;
    ret {| original_idx := original_idx L;
           use_left := use_left L;
           flipped := flipped L;
           affine := true;
           center := (fst (center L) + fst (size L) * dx,
                      snd (center L) + snd (size L) * dy);
           size := (fst (size L) * k, snd (size L) * k);
           img := img L;
           arrays := arrays L;
           P := P L;
           P_list := P_list L;
           anns_list := anns_list L;
           region_list := region_list L |}
  else ret L.

(** [mosaic_img.size == img.size] *)
Definition same_size (a b : Z * Z) : bool :=
  (fst a =? fst b)%Z && (snd a =? snd b)%Z.

(** The guard of line 130. *)
Definition mosaic_guard (L : Locals) : bool :=
  is_train self && Qltb 0 (mosaic_prob self)
  && negb (affine L) && negb (flipped L).

(** Lines 130-150: mosaic composition. *)
Definition mosaic_step (L : Locals) : M Locals :=
  if mosaic_guard L then
    mosaic_idx <- choice env (seq 0 (num_samples self)) ;;
    '(mosaic_anns, mosaic_P2, mosaic_P3) <-
      load_annotations env self mosaic_idx ;;
    let heap := arrays L ++ [mosaic_P2; mosaic_P3] in
    let mosaic_P :=
      if use_left L then length (arrays L) else S (length (arrays L)) in
    image_name <- lift (get_item (image_files self) mosaic_idx) ;;
    let d := if use_left L then image_dir else image3_dir in
    mosaic_img <- Image_open env d image_name ;;
    if same_size (img_size mosaic_img) (img_size (img L)) then
      left_ratio <- uniform env (3 # 10) (7 # 10) ;;
      let ow := Qof (output_width self) in
      let oh := Qof (output_height self) in
      ret {| original_idx := original_idx L;
             use_left := use_left L;
             flipped := flipped L;
             affine := affine L;
             center := center L;
             size := size L;
             img := apply_op
                      (PasteRightOf d image_name
                         (Qtrunc (left_ratio * Qof (fst (img_size (img L))))))
                      (img L);
             arrays := heap;
             P := P L;
             P_list := P_list L ++ [mosaic_P];
             anns_list := anns_list L ++ [mosaic_anns];
             region_list :=
               [(0, left_ratio * ow, 0, oh); (left_ratio * ow, ow, 0, oh)] |}
    else
      ret {| original_idx := original_idx L;
             use_left := use_left L;
             flipped := flipped L;
             affine := affine L;
             center := center L;
             size := size L;
             img := img L;
             arrays := heap;
             P := P L;
             P_list := P_list L;
             anns_list := anns_list L;
             region_list := region_list L |}
  else ret L.

(** Lines 152-155: Gaussian noise and colour change. *)
Definition photometric_step (L : Locals) : M Locals :=
  noise <- train_draw (gaussian_prob self) ;;
  colour <- train_draw (color_prob self) ;;
  let im := if noise then apply_op RandomGaussian (img L) else img L in
  let im := if colour then apply_op RandomColor im else im in
  ret {| original_idx := original_idx L;
         use_left := use_left L;
         flipped := flipped L;
         affine := affine L;
         center := center L;
         size := size L;
         img := im;
         arrays := arrays L;
         P := P L;
         P_list := P_list L;
         anns_list := anns_list L;
         region_list := region_list L |}.

(** Lines 86-155. *)
Definition augment (idx : nat) : M Locals :=
  L <- select_view idx ;;
  L <- flip_step L ;;
  L <- jitter_step L ;;
  L <- mosaic_step L ;;
  photometric_step L.
End Augmentation.

(** ** [__getitem__]: target assembly *)

(** The arrays allocated at lines 192-205. *)
Record Buffers : Type := {
  heat_map : list Mat;
  regression : list Mat;
  cls_ids : list nat;
  proj_points : list (Z * Z);
  p_offsets : list Vec2;
  dimensions : list (list Q);
  locations : list (list Q);
  rotys : list Q;
  reg_mask : list nat;
  flip_mask : list nat;
  regression_2d : list (Vec2 * Vec2);
  p_2d_offsets : list Vec2;
  p_2d_whs : list Vec2
}.

(** [np.zeros([rows, cols])] *)
Definition zeros (rows cols : nat) : Mat := replicate rows (replicate cols 0).

(** [region[0] < point[0] < region[1] and region[2] < point[1] < region[3]] *)
Definition in_region (r : Region) (point : Vec2) : bool :=
  let '(x_lo, x_hi, y_lo, y_hi) := r in
  (Qltb x_lo (fst point) && Qltb (fst point) x_hi)
  && (Qltb y_lo (snd point) && Qltb (snd point) y_hi).

(** [v[0] *= -1] *)
Definition negate_first (v : list Q) : list Q :=
  match v with
  | [] => []
  | x :: rest => x * (-1 # 1) :: rest
  end.

(** What lines 235-253 compute for one object and store in its slot. *)
Record Encoded : Type := {
  e_cls : nat;
  e_box3d : Mat;
  e_point_int : Z * Z;
  e_p_offset : Vec2;
  e_dimensions : list Q;
  e_locs : list Q;
  e_rot_y : Q;
  e_reg_mask : nat;
  e_flip_mask : nat;
  e_box2d : Vec2 * Vec2;
  e_p_2d_offset : Vec2;
  e_wh : Vec2
}.

Section Assembly.
Context {X : Externals} (self : KITTIDataset).
Local Open Scope result_scope.

Definition new_buffers : Buffers :=
  let n := max_objs self in
  {| heat_map :=
       replicate (num_classes self)
         (zeros (Z.to_nat (output_height self))
                (Z.to_nat (output_width self)));
     regression := replicate n (zeros 3 8);
     cls_ids := replicate n 0%nat;
     proj_points := replicate n (0%Z, 0%Z);
     p_offsets := replicate n (0, 0);
     dimensions := replicate n [0; 0; 0];
     locations := replicate n [0; 0; 0];
     rotys := replicate n 0;
     reg_mask := replicate n 0%nat;
     flip_mask := replicate n 0%nat;
     regression_2d := replicate n ((0, 0), (0, 0));
     p_2d_offsets := replicate n (0, 0);
     p_2d_whs := replicate n (0, 0) |}.

(** Lines 212-230 and 235-253: projection of one annotation to the
    output grid; the result is the keypoint, what is stored for the
    object if it is accepted, and the radius of its heatmap peak. *)
Definition project (flip jitter : bool) (trans_mat : Mat) (Pm : Mat)
    (a : Annotation) : Vec2 * Encoded * Z :=
  let locs := if flip then negate_first (a_locations a) else a_locations a in
  let rot_y := if flip then a_rot_y a * (-1 # 1) else a_rot_y a in
  let '(point, box2d, box3d) :=
    encode_label Pm rot_y (a_dimensions a) locs in
  let point := affine_transform point trans_mat in
  let lo := affine_transform (fst box2d) trans_mat in
  let hi := affine_transform (snd box2d) trans_mat in
  let w_max := Qof (output_width self) - 1 in
  let h_max := Qof (output_height self) - 1 in
  let x1 := Qclip 0 w_max (fst lo) in
  let x2 := Qclip 0 w_max (fst hi) in
  let y1 := Qclip 0 h_max (snd lo) in
  let y2 := Qclip 0 h_max (snd hi) in
  let h := y2 - y1 in
  let w := x2 - x1 in
  let center_2d := ((x1 + x2) * (1 # 2), (y1 + y2) * (1 # 2)) in
  let point_int := (Qtrunc (fst point), Qtrunc (snd point)) in
  (point,
   {| e_cls := a_label a;
      e_box3d := box3d;
      e_point_int := point_int;
      e_p_offset := (fst point - Qof (fst point_int),
                     snd point - Qof (snd point_int));
      e_dimensions := a_dimensions a;
      e_locs := locs;
      e_rot_y := rot_y;
      e_reg_mask := if negb jitter then 1%nat else 0%nat;
      e_flip_mask := if negb jitter && flip then 1%nat else 0%nat;
      e_box2d := ((x1, y1), (x2, y2));
      e_p_2d_offset := (fst center_2d - Qof (fst point_int),
                        snd center_2d - Qof (snd point_int));
      e_wh := (w, h) |},
   Z.max 0 (Qtrunc (gaussian_radius h w))).

(** Lines 239-253: the heatmap of the class, then slot [i] of every
    per-object array. *)
Definition store (i : nat) (e : Encoded) (radius : Z) (b : Buffers)
    : result Buffers :=
  channel <~ get_item (heat_map b) (e_cls e) ;;
  hm <~ set_item (heat_map b) (e_cls e)
          (draw_umich_gaussian channel (e_point_int e) radius) ;;
  ids <~ set_item (cls_ids b) i (e_cls e) ;;
  reg <~ set_item (regression b) i (e_box3d e) ;;
  pts <~ set_item (proj_points b) i (e_point_int e) ;;
  offs <~ set_item (p_offsets b) i (e_p_offset e) ;;
  dims <~ set_item (dimensions b) i (e_dimensions e) ;;
  locs <~ set_item (locations b) i (e_locs e) ;;
  rots <~ set_item (rotys b) i (e_rot_y e) ;;
  rmask <~ set_item (reg_mask b) i (e_reg_mask e) ;;
  fmask <~ set_item (flip_mask b) i (e_flip_mask e) ;;
  r2d <~ set_item (regression_2d b) i (e_box2d e) ;;
  offs2d <~ set_item (p_2d_offsets b) i (e_p_2d_offset e) ;;
  whs <~ set_item (p_2d_whs b) i (e_wh e) ;;
  Ok {| heat_map := hm; regression := reg; cls_ids := ids;
        proj_points := pts; p_offsets := offs; dimensions := dims;
        locations := locs; rotys := rots; reg_mask := rmask;
        flip_mask := fmask; regression_2d := r2d;
        p_2d_offsets := offs2d; p_2d_whs := whs |}.

Section Sample.
Context (L : Locals) (trans_mat : Mat).

(** The body of the inner loop (lines 212-253) for annotation [a] at
    position [i] of its list. *)
Definition encode_object (region : Region) (Pm : Mat) (i : nat)
    (a : Annotation) (b : Buffers) : result Buffers :=
  let '(point, e, radius) :=
    project (flipped L) (affine L) trans_mat Pm a in
  if in_region region point then store i e radius b else Ok b.

(** [for i, a in enumerate(anns)], from position [i] on. *)
Fixpoint encode_source (region : Region) (Pm : Mat) (i : nat)
    (anns : list Annotation) (b : Buffers) : result Buffers :=
  match anns with
  | [] => Ok b
  | a :: rest =>
      b' <~ encode_object region Pm i a b ;;
      encode_source region Pm (S i) rest b'
  end.

(** [for i in range(len(anns_list))] over the remaining positions
    [srcs]; the name [P] is rebound at each round and keeps its last
    value after the loop. *)
Fixpoint encode_sources (srcs : list nat) (Pref : nat) (b : Buffers)
    : result (nat * Buffers) :=
  match srcs with
  | [] => Ok (Pref, b)
  | i :: rest =>
      anns <~ get_item (anns_list L) i ;;
      region <~ get_item (region_list L) i ;;
      Pref' <~ get_item (P_list L) i ;;
      b' <~ encode_source region (array_at (arrays L) Pref') 0 anns b ;;
      encode_sources rest Pref' b'
  end.
End Sample.
End Assembly.

(** [P = np.concatenate((P, np.ones((1, 4))), axis=0); P[3, :3] = 0] for
    the three-row [P] that [load_annotations] returns. *)
Definition extend_P (Pm : Mat) : Mat :=
  let m := Pm ++ [[1; 1; 1; 1]] in
  match m !! 3%nat with
  | Some row => <[3%nat := [0; 0; 0] ++ drop 3 row]> m
  | None => m
  end.

Section GetItem.
Context {X : Externals} (env : Env) (self : KITTIDataset).
Local Open Scope result_scope.

Definition run_transforms (im : Image) (target : ParamsList)
    : Image * ParamsList :=
  match transforms self with
  | Some hook => hook im target
  | None => (im, target)
  end.

(** The fields of the training target (lines 260-276). *)
Definition train_target (im : Image) (trans_mat Pext : Mat) (b : Buffers)
    : ParamsList :=
  let t := {| image_size := (Qof (fst (img_size im)), Qof (snd (img_size im)));
              pl_is_train := is_train self;
              extra_fields := [] |} in
  let t := add_field "hm" (FMatrices (heat_map b)) t in
  let t := add_field "reg" (FMatrices (regression b)) t in
  let t := add_field "cls_ids" (FInts (cls_ids b)) t in
  let t := add_field "proj_p" (FPoints (proj_points b)) t in
  let t := add_field "dimensions" (FVectors (dimensions b)) t in
  let t := add_field "locations" (FVectors (locations b)) t in
  let t := add_field "rotys" (FScalars (rotys b)) t in
  let t := add_field "trans_mat" (FMatrix trans_mat) t in
  let t := add_field "P" (FMatrix Pext) t in
  let t := add_field "reg_mask" (FInts (reg_mask b)) t in
  let t := add_field "flip_mask" (FInts (flip_mask b)) t in
  let t := add_field "reg_2d" (FBoxes (regression_2d b)) t in
  let t := add_field "p_2d_offsets" (FVec2s (p_2d_offsets b)) t in
  add_field "p_2d_whs" (FVec2s (p_2d_whs b)) t.

(** The output-grid transform of lines 174-177. *)
Definition output_transform (L : Locals) : Mat :=
  get_transfrom_matrix (center L, size L)
    (output_width self, output_height self).

(** The loops of lines 207-253 on fresh buffers. *)
Definition assemble (L : Locals) : result (nat * Buffers) :=
  encode_sources self L (output_transform L)
    (seq 0 (length (anns_list L))) (P L) (new_buffers self).

(** Lines 157-281. *)
Definition finish (L : Locals) : result (Image * ParamsList * string) :=
  let trans_affine :=
    get_transfrom_matrix (center L, size L)
      (input_width self, input_height self) in
  let im :=
    resized (input_width self, input_height self)
      (apply_op (AffineResample trans_affine) (img L)) in
  let trans_mat := output_transform L in
  if negb (is_train self) then
    let Pext := extend_P (array_at (arrays L) (P L)) in
    let t := {| image_size := size L; pl_is_train := is_train self;
                extra_fields := [] |} in
    let t := add_field "trans_mat" (FMatrix trans_mat) t in
    let t := add_field "P" (FMatrix Pext) t in
    Ok (run_transforms im t, original_idx L)
  else
    '(Pref, b) <~ assemble L ;;
    let Pext := extend_P (array_at (arrays L) Pref) in
    Ok (run_transforms im (train_target im trans_mat Pext b),
        original_idx L).

Local Open Scope eff_scope.

Definition getitem (idx : nat) : M (Image * ParamsList * string) :=
  L <- augment env self idx ;;
  lift (finish L).
End GetItem.

(** ** Reading the assembled buffers *)

(** Slot [k] of the per-object arrays, gathered into one record. *)
Definition slot_at (b : Buffers) (k : nat) : option Encoded :=
  c ← cls_ids b !! k;
  r ← regression b !! k;
  p ← proj_points b !! k;
  o ← p_offsets b !! k;
  d ← dimensions b !! k;
  l ← locations b !! k;
  y ← rotys b !! k;
  rm ← reg_mask b !! k;
  fm ← flip_mask b !! k;
  r2 ← regression_2d b !! k;
  o2 ← p_2d_offsets b !! k;
  wh ← p_2d_whs b !! k;
  Some {| e_cls := c; e_box3d := r; e_point_int := p; e_p_offset := o;
          e_dimensions := d; e_locs := l; e_rot_y := y; e_reg_mask := rm;
          e_flip_mask := fm; e_box2d := r2; e_p_2d_offset := o2;
          e_wh := wh |}.

(** The slot as [np.zeros] leaves it. *)
Definition empty_slot : Encoded :=
  {| e_cls := 0%nat; e_box3d := zeros 3 8; e_point_int := (0%Z, 0%Z);
     e_p_offset := (0, 0); e_dimensions := [0; 0; 0]; e_locs := [0; 0; 0];
     e_rot_y := 0; e_reg_mask := 0%nat; e_flip_mask := 0%nat;
     e_box2d := ((0, 0), (0, 0)); e_p_2d_offset := (0, 0); e_wh := (0, 0) |}.

(** Every per-object array has [n] slots. *)
Record slots (n : nat) (b : Buffers) : Prop := {
  len_cls_ids : length (cls_ids b) = n;
  len_regression : length (regression b) = n;
  len_proj_points : length (proj_points b) = n;
  len_p_offsets : length (p_offsets b) = n;
  len_dimensions : length (dimensions b) = n;
  len_locations : length (locations b) = n;
  len_rotys : length (rotys b) = n;
  len_reg_mask : length (reg_mask b) = n;
  len_flip_mask : length (flip_mask b) = n;
  len_regression_2d : length (regression_2d b) = n;
  len_p_2d_offsets : length (p_2d_offsets b) = n;
  len_p_2d_whs : length (p_2d_whs b) = n
}.

(** The number of slots whose regression-validity mask is 1. *)
Definition valid_slots (b : Buffers) : nat :=
  length (List.filter (Nat.eqb 1) (reg_mask b)).

Section Objects.
Context {X : Externals} (self : KITTIDataset) (L : Locals).

(** The output-grid keypoint of an annotation under matrix [Pm]. *)
Definition keypoint (Pm : Mat) (a : Annotation) : Vec2 :=
  fst (fst (project self (flipped L) (affine L) (output_transform self L)
              Pm a)).

(** What is written to the slot of an accepted annotation. *)
Definition encoding (Pm : Mat) (a : Annotation) : Encoded :=
  snd (fst (project self (flipped L) (affine L) (output_transform self L)
              Pm a)).

(** The test of line 232. *)
Definition accepted (region : Region) (Pm : Mat) (a : Annotation) : bool :=
  in_region region (keypoint Pm a).

(** Annotation [a] is at position [k] of source image [i], whose region
    and calibration matrix are [region] and [Pm]. *)
Definition object_of (i k : nat) (a : Annotation) (region : Region)
    (Pm : Mat) : Prop :=
  exists anns ref,
    anns_list L !! i = Some anns /\ anns !! k = Some a /\
    region_list L !! i = Some region /\
    P_list L !! i = Some ref /\ Pm = array_at (arrays L) ref.

(** The accepted objects in encounter order: source by source, each in
    the order of its annotation list. *)
Definition accepted_of_source (i : nat) : list Encoded :=
  match anns_list L !! i, region_list L !! i, P_list L !! i with
  | Some anns, Some region, Some ref =>
      let Pm := array_at (arrays L) ref in
      List.map (encoding Pm) (List.filter (accepted region Pm) anns)
  | _, _, _ => []
  end.

Definition accepted_in_order : list Encoded :=
  List.concat (List.map accepted_of_source (seq 0 (length (anns_list L)))).

(** The slot of an annotation after its turn in the loop. *)
Definition after_object (region : Region) (Pm : Mat) (a : Annotation)
    (old : option Encoded) : option Encoded :=
  if accepted region Pm a then Some (encoding Pm a) else old.

(** Slot [k] after the round of source [i]. *)
Definition after_source (i k : nat) (old : option Encoded)
    : option Encoded :=
  match anns_list L !! i, region_list L !! i, P_list L !! i with
  | Some anns, Some region, Some ref =>
      match anns !! k with
      | Some a => after_object region (array_at (arrays L) ref) a old
      | None => old
      end
  | _, _, _ => old
  end.

(** Slot [k] after the rounds of the sources [srcs]. *)
Definition after_sources (srcs : list nat) (k : nat)
    (old : option Encoded) : option Encoded :=
  fold_left (fun o i => after_source i k o) srcs old.
End Objects.

(** ** Notions used by the properties *)

(** A matrix of three rows of four values. *)
Definition is_3x4 (m : Mat) : Prop :=
  exists a b c d e f g h i j k l : Q,
    m = [[a; b; c; d]; [e; f; g; h]; [i; j; k; l]].

Section Notions.
Context {X : Externals} (env : Env) (self : KITTIDataset).

(** The directory the partner image is read from. *)
Definition partner_dir (L : Locals) : Dir :=
  if use_left L then image_dir else image3_dir.

(** The split fraction drawn at line 145 when the draw is made at
    position [k] of the random stream. *)
Definition split_fraction (k : nat) : Q :=
  ((3 # 10) + ((7 # 10) - (3 # 10)) * rand_unit env k)%Q.

(** The full output grid. *)
Definition full_grid : Region :=
  (0, Qof (output_width self), 0, Qof (output_height self))%Q.

(** The column ranges of the two sources of a mosaic split at [r]. *)
Definition left_part (r : Q) : Region :=
  (0, r * Qof (output_width self), 0, Qof (output_height self))%Q.

Definition right_part (r : Q) : Region :=
  (r * Qof (output_width self), Qof (output_width self),
   0, Qof (output_height self))%Q.

(** The calibration matrix of the view in use. *)
Definition view_matrix (left : bool) (P2 P3 : Mat) : Mat :=
  if left then P2 else P3.

(** A matrix with its principal-point entry mirrored in [width]. *)
Definition mirrored (width : Q) (m : Mat) : Mat :=
  mat_set m 0 2 (flip_coord width (mat_get m 0 2)).

(** The slots are filled in encounter order: the [j]-th accepted object
    of the sample is in slot [j]. *)
Definition slots_in_encounter_order (L : Locals) (b : Buffers) : Prop :=
  forall j e,
    accepted_in_order self L !! j = Some e ->
    (j < max_objs self)%nat -> slot_at b j = Some e.


(** A partner of another resolution is followed by a second draw of a
    partner index. *)
Definition retried_after_mismatch (L : Locals) (s : State) : Prop :=
  forall L' s' name wh,
    mosaic_step env self L s = (Ok L', s') ->
    image_files self !! (rand_int env (rng_pos s) mod num_samples self)%nat
      = Some name ->
    image_size_at env (partner_dir L) name = Some wh ->
    same_size wh (img_size (img L)) = false ->
    (S (rng_pos s) < rng_pos s')%nat.







End Notions.

(** ** [__len__] and notions for the further properties *)

Definition len (self : KITTIDataset) : nat := num_samples self.

(** The split [__init__] reads, and the four it knows. *)
Definition split_of (cfg : Cfg) (train : bool) : string :=
  if train then TRAIN_SPLIT cfg else TEST_SPLIT cfg.

Definition known_splits : list string :=
  ["train"; "val"; "trainval"; "test"]%string.

(** No character of [s] is [c]. *)
Fixpoint avoids (c : ascii) (s : string) : Prop :=
  match s with
  | EmptyString => True
  | String a rest => a <> c /\ avoids c rest
  end.

(** The class names of the rows a [DictReader] yields: the first field of
    every row that is not empty. *)
Fixpoint row_types (rows : list (list string)) : list string :=
  match rows with
  | [] => []
  | [] :: rest => row_types rest
  | (type :: _) :: rest => type :: row_types rest
  end.

(** The objects of a list of annotations fit: the accepted ones stand
    below slot [n], counted from [i], and have a class id below [c]. *)
Definition fits {X : Externals} (self : KITTIDataset) (L : Locals)
    (n c : nat) (region : Region) (Pm : Mat)
    (i : nat) (anns : list Annotation) : Prop :=
  forall k a,
    anns !! k = Some a -> accepted self L region Pm a = true ->
    (i + k < n)%nat /\ (a_label a < c)%nat.

(** * The checkpoint listing of tools/evaluate_script.py

    Lines 35-42 and 51 of [main]: the iterations are read off the names
    of the files of the output directory, sorted, and turned back into
    the names of the checkpoints to load.  Building, loading and running
    the model belong to other modules. *)

(** [sub in s] *)
Fixpoint contains (sub s : string) : bool :=
  String.prefix sub s ||
  match s with
  | EmptyString => false
  | String _ rest => contains sub rest
  end.

(** [s.split(sep)] for a separator of one character. *)
Fixpoint split (sep : ascii) (s : string) : list string :=
  match s with
  | EmptyString => [EmptyString]
  | String c rest =>
      if Ascii.eqb c sep then EmptyString :: split sep rest
      else match split sep rest with
           | [] => [String c EmptyString]
           | piece :: pieces => String c piece :: pieces
           end
  end.

(** [str(n)] for a natural number. *)
Definition digits_of (n : nat) : string :=
  NilZero.string_of_uint (Nat.to_uint n).

(** [width] characters at least, zeros added on the left. *)
Fixpoint zeros_before (k : nat) (s : string) : string :=
  match k with
  | O => s
  | S k' => String "0" (zeros_before k' s)
  end.

Definition zero_pad (width : nat) (s : string) : string :=
  zeros_before (width - String.length s) s.

(** ["{:07d}".format(n)]: the sign counts in the width. *)
Definition format_07d (n : Z) : string :=
  if (n <? 0)%Z
  then String "-" (zero_pad 6 (digits_of (Z.to_nat (- n))))
  else zero_pad 7 (digits_of (Z.to_nat n)).

(** ["model_{:07d}.pth".format(iteration)] (line 51) *)
Definition model_name_of (iteration : Z) : string :=
  String.append "model_" (String.append (format_07d iteration) ".pth").

(** The test of line 38 that passes a name over. *)
Definition passed (model_name : string) : bool :=
  negb (contains "pth" model_name) || contains "final" model_name.

Section Checkpoints.
Context (int_of_str : string -> option Z).
Local Open Scope result_scope.

(** [int(text)]; [None]: [ValueError]. *)
Definition py_int (text : string) : result Z :=
  match int_of_str text with
  | Some n => Ok n
  | None => Raise ValueError
  end.

(** [int(model_name.split(".")[0].split('_')[1])] (line 40) *)
Definition checkpoint_iteration (model_name : string) : result Z :=
  stem <~ get_item (split "." model_name) 0 ;;
  piece <~ get_item (split "_" stem) 1 ;;
  py_int piece.

(** The loop of lines 36-41 over the names [os.listdir] returns. *)
Fixpoint iteration_list (names : list string) : result (list Z) :=
  match names with
  | [] => Ok []
  | model_name :: rest =>
      if passed model_name then iteration_list rest
      else
        iteration <~ checkpoint_iteration model_name ;;
        iterations <~ iteration_list rest ;;
        Ok (iteration :: iterations)
  end.

(** [sorted(iteration_list)] (line 42) *)
Definition sorted_iterations (names : list string) : result (list Z) :=
  iterations <~ iteration_list names ;;
  Ok (merge_sort Z.le iterations).

(** The checkpoints loaded by the loop of lines 44-53, in its order. *)
Definition checkpoints_to_evaluate (names : list string)
    : result (list string) :=
  iterations <~ sorted_iterations names ;;
  Ok (List.map model_name_of iterations).
End Checkpoints.

(** [int] reads a non-empty text of decimal digits as its value. *)
Definition reads_digits (int_of_str : string -> option Z) : Prop :=
  forall text d,
    text <> EmptyString ->
    NilEmpty.uint_of_string text = Some d ->
    int_of_str text = Some (Z.of_nat (Nat.of_uint d)).

(** Every character of [s] is a decimal digit. *)
Fixpoint all_digits (s : string) : Prop :=
  match s with
  | EmptyString => True
  | String c rest =>
      (48 <= nat_of_ascii c)%nat /\ (nat_of_ascii c <= 57)%nat /\
      all_digits rest
  end.

(** ** A small dataset on which the pipeline is run *)

Module Fixture.

Definition digit_of (c : ascii) : option Z :=
  let n := nat_of_ascii c in
  if (48 <=? n)%nat && (n <=? 57)%nat then Some (Z.of_nat n - 48)%Z
  else None.

(** The leading digits of [s]: their value after [acc], how many there
    are, and the rest of the text. *)
Fixpoint read_digits (s : string) (acc : Z) (count : nat)
    : Z * nat * string :=
  match s with
  | EmptyString => (acc, count, EmptyString)
  | String c rest =>
      match digit_of c with
      | Some d => read_digits rest (10 * acc + d)%Z (S count)
      | None => (acc, count, s)
      end
  end.

Definition unsigned_decimal (s : string) : option Q :=
  let '(ip, n1, rest) := read_digits s 0%Z 0%nat in
  match rest with
  | EmptyString => if (0 <? n1)%nat then Some (Qof ip) else None
  | String c frac =>
      if Ascii.eqb c "."%char then
        let '(fp, n2, rest') := read_digits frac 0%Z 0%nat in
        match rest' with
        | EmptyString =>
            if (0 <? n1 + n2)%nat
            then Some (Qred (Qof ip + Qof fp / Qof (10 ^ Z.of_nat n2)))
            else None
        | String _ _ => None
        end
      else None
  end.

(** [float] on plain decimal literals, the texts the fixture holds. *)
Definition decimal (s : string) : option Q :=
  match s with
  | String c rest =>
      if Ascii.eqb c "-"%char
      then option_map Qopp (unsigned_decimal rest)
      else unsigned_decimal s
  | EmptyString => None
  end.

Definition entry (m : Mat) (r c : nat) : Q := mat_get m r c.

(** Stand-ins for the functions of [smoke.modeling]: a window-to-target
    scaling, the affine map of a point, a pinhole projection of the
    location with a box of half-side 2 around it, a radius from the box
    and a one-pixel peak. *)
#[export] Instance stand_ins : Externals := {|
  float_of_str := decimal;
  get_transfrom_matrix := fun cs wh =>
    let '((cx, cy), (sw, sh)) := cs in
    let kx := Qof (fst wh) / sw in
    let ky := Qof (snd wh) / sh in
    [[kx; 0; Qred (Qof (fst wh) / 2 - cx * kx)];
     [0; ky; Qred (Qof (snd wh) / 2 - cy * ky)]];
  affine_transform := fun p m =>
    (Qred (entry m 0 0 * fst p + entry m 0 1 * snd p + entry m 0 2),
     Qred (entry m 1 0 * fst p + entry m 1 1 * snd p + entry m 1 2));
  encode_label := fun Pm rot_y dims locs =>
    let x := nth 0 locs 0 in
    let y := nth 1 locs 0 in
    let z := nth 2 locs 0 in
    let px := Qred (entry Pm 0 0 * x / z + entry Pm 0 2) in
    let py := Qred (entry Pm 1 1 * y / z + entry Pm 1 2) in
    ((px, py), ((px - 2, py - 2), (px + 2, py + 2)), zeros 3 8);
  gaussian_radius := fun h w => Qred ((h + w) / 4);
  draw_umich_gaussian := fun hm c r =>
    mat_set hm (Z.to_nat (snd c)) (Z.to_nat (fst c)) 1
|}.

Definition calib_rows (P2_x P3_x : string) : list (list string) :=
  [["P0:"; "1"; "0"; "0"; "0"; "0"; "1"; "0"; "0"; "0"; "0"; "1"; "0"];
   ["P2:"; "1"; "0"; P2_x; "0"; "0"; "1"; "0"; "0"; "0"; "0"; "1"; "0"];
   ["P3:"; "1"; "0"; P3_x; "0"; "0"; "1"; "0"; "0"; "0"; "0"; "1"; "0"];
   ["R0_rect:"; "1"; "0"; "0"; "0"; "1"; "0"; "0"; "0"; "1"]]%string.

(** An annotation row of class [type] at location [(lx, ly, 1)], with
    [xmin] and [alpha] as given. *)
Definition label_row_with (type alpha xmin lx ly : string) : list string :=
  [type; "0.00"; "0"; alpha; xmin; "2"; "3"; "4"; "1.5"; "1.8"; "4.0";
   lx; ly; "1"; "0.5"]%string.

Definition label_row (type lx ly : string) : list string :=
  label_row_with type "1.5" "1" lx ly.

(** Frames 000000 to 000002 are sound (the 2D box of 000002 aside);
    000003 has no calibration file, 000004 no label file, 000005 a
    malformed observation angle, 000006 a calibration file without its
    [P3] row. *)
Definition labels (name : string) : option (list (list string)) :=
  if String.eqb name "000000.txt" then
    Some [label_row "Car" "30" "5"; label_row "DontCare" "1" "1";
          label_row "Car" "5" "5"; label_row "Pedestrian" "15" "6"]
  else if String.eqb name "000001.txt" then
    Some [label_row "Car" "3" "3"; label_row "Car" "12" "4"]
  else if String.eqb name "000002.txt" then
    Some [label_row_with "Car" "1.5" "abc" "2" "2"]
  else if String.eqb name "000003.txt" then
    Some [label_row "Car" "2" "2"]
  else if String.eqb name "000005.txt" then
    Some [label_row "Car" "2" "2";
          label_row_with "Car" "1.5x" "1" "2" "2"]
  else if String.eqb name "000006.txt" then
    Some [label_row "Car" "2" "2"]
  else None.

Definition calibs (name : string) : option (list (list string)) :=
  if String.eqb name "000000.txt" then Some (calib_rows "0" "1")
  else if String.eqb name "000001.txt" then Some (calib_rows "2" "3")
  else if String.eqb name "000002.txt" then Some (calib_rows "0" "0")
  else if String.eqb name "000004.txt" then Some (calib_rows "0" "0")
  else if String.eqb name "000005.txt" then Some (calib_rows "0" "0")
  else if String.eqb name "000006.txt" then
    Some (List.filter
            (fun row => negb (String.eqb (List.hd EmptyString row) "P3:"))
            (calib_rows "0" "0"))
  else None.

Definition sizes (name : string) : option (Z * Z) :=
  if String.eqb name "000000.png" then Some (20, 10)%Z
  else if String.eqb name "000001.png" then Some (20, 10)%Z
  else if String.eqb name "000002.png" then Some (16, 8)%Z
  else None.

(** The files, with the draws of [random.random()] given by [units] and
    the integers behind [random.choice] by [ints] (position by
    position, 0 beyond the lists). *)
Definition world (units : list Q) (ints : list nat) : Env :=
  {| csv_rows := fun d name =>
       match d with
       | label_dir => labels name
       | calib_dir => calibs name
       | _ => None
       end;
     text_lines := fun d name =>
       match d with
       | imagesets_dir =>
           if String.eqb name "train.txt"
           then Some [String.append "000000" newline;
                      String.append "000001" newline;
                      String.append "000002" newline]
           else None
       | _ => None
       end;
     image_size_at := fun d name =>
       match d with
       | image_dir | image3_dir => sizes name
       | _ => None
       end;
     rand_unit := fun k => nth k units 0;
     rand_int := fun k => nth k ints 0%nat |}.

Definition config (max : nat) (flip jitter mosaic : Q) : Cfg :=
  {| TRAIN_SPLIT := "train"; TEST_SPLIT := "test";
     DETECT_CLASSES := ["Car"; "Cyclist"; "Pedestrian"]%string;
     FLIP_PROB_TRAIN := flip;
     SHIFT_SCALE_PROB_TRAIN := jitter;
     GAUSSIAN_NOISE_PROB_TRAIN := 0;
     COLOR_CHANGE_PROB_TRAIN := 0;
     SHIFT_SCALE_TRAIN := (2 # 10, 4 # 10);
     USE_RIGHT_PROB_TRAIN := 0;
     MOSAIC_PROB_TRAIN := mosaic;
     WIDTH_TRAIN := 20; HEIGHT_TRAIN := 10; DOWN_RATIO := 1;
     MAX_OBJECTS := max |}.

(** The dataset object [__init__] builds in training mode. *)
Definition dataset (max : nat) (flip jitter mosaic : Q) : KITTIDataset :=
  {| is_train := true;
     transforms := None;
     image_files := ["000000.png"; "000001.png"; "000002.png"]%string;
     label_files := ["000000.txt"; "000001.txt"; "000002.txt"]%string;
     num_samples := 3;
     classes := ["Car"; "Cyclist"; "Pedestrian"]%string;
     flip_prob := flip;
     aug_prob := jitter;
     gaussian_prob := 0;
     color_prob := 0;
     shift_scale := (2 # 10, 4 # 10);
     right_prob := 0;
     mosaic_prob := mosaic;
     num_classes := 3;
     input_width := 20; input_height := 10;
     output_width := 20; output_height := 10;
     max_objs := max |}.


Definition start : State := {| rng_pos := 0; opened := [] |}.

(** No draw of [random.random()] is below a probability. *)
Definition quiet : Env := world [1; 1; 1; 1; 1; 1; 1] [].

(** The flip draw (the second) is a hit. *)
Definition flipping : Env := world [1; 0; 1; 1; 1] [].

(** The jitter draw (the third) is a hit; the three choices that follow
    take the ranges at positions 1, 2 and 4. *)
Definition jittering : Env :=
  world [1; 1; 0; 1; 1; 1; 1; 1] [0; 0; 0; 1; 2; 4]%nat.

(** The fourth draw picks the partner [k]; the fifth gives the split
    fraction 0.3 + 0.4 * 0.5. *)
Definition pairing (k : nat) : Env :=
  world [1; 1; 1; 0; 1 # 2; 1; 1] [0; 0; 0; k]%nat.

(** The files again, with every draw of [random.random()] equal to [u]
    and every integer behind [random.choice] equal to [k]. *)
Definition steady (u : Q) (k : nat) : Env :=
  {| csv_rows := csv_rows (world [] []);
     text_lines := text_lines (world [] []);
     image_size_at := image_size_at (world [] []);
     rand_unit := fun _ => u;
     rand_int := fun _ => k |}.

(** [int] on texts of decimal digits. *)
Definition decimal_int (text : string) : option Z :=
  match text with
  | EmptyString => None
  | String _ _ =>
      option_map (fun d => Z.of_nat (Nat.of_uint d))
        (NilEmpty.uint_of_string text)
  end.

Definition no_locals : Locals :=
  {| original_idx := EmptyString; use_left := true; flipped := false;
     affine := false; center := (0, 0); size := (0, 0);
     img := {| img_dir := image_dir; img_name := EmptyString;
               img_size := (0, 0)%Z; img_ops := [] |};
     arrays := []; P := 0; P_list := []; anns_list := [];
     region_list := [] |}.

(** The local variables [augment] ends with. *)
Definition locals_of (env : Env) (self : KITTIDataset) (idx : nat)
    : Locals :=
  match augment env self idx start with
  | (Ok L, _) => L
  | (Raise _, _) => no_locals
  end.

(** The local variables and the state at line 130, before the mosaic
    step. *)
Definition before_mosaic (env : Env) (self : KITTIDataset) (idx : nat)
    : Locals * State :=
  match bind (select_view env self idx)
          (fun L => bind (flip_step env self L) (jitter_step env self))
          start with
  | (Ok L, s) => (L, s)
  | (Raise _, s) => (no_locals, s)
  end.

(** The buffers the loops end with. *)
Definition buffers_of (self : KITTIDataset) (L : Locals) : Buffers :=
  match assemble self L with
  | Ok (_, b) => b
  | Raise _ => new_buffers self
  end.

(** What [getitem] returns. *)
Definition sample_of (env : Env) (self : KITTIDataset) (idx : nat)
    : Image * ParamsList * string :=
  match getitem env self idx start with
  | (Ok r, _) => r
  | (Raise _, _) =>
      (img no_locals,
       {| image_size := (0, 0); pl_is_train := true; extra_fields := [] |},
       EmptyString)
  end.

(** Frame 000000 without augmentation, with three slots and with one. *)
Definition plain : KITTIDataset := dataset 3 0 0 0.
Definition plain_L : Locals := locals_of quiet plain 0.

(** Frame 000000 flipped. *)
Definition mirror : KITTIDataset := dataset 3 1 0 0.
Definition mirror_L : Locals := locals_of flipping mirror 0.

(** Frame 000000 composed with frame 000001, and drawn with the
    partner 000002 of another size. *)
Definition pairs : KITTIDataset := dataset 3 0 0 (1 # 2).
Definition pairs_L : Locals := locals_of (pairing 1) pairs 0.

(** The object [__init__] builds outside training, over the frames
    000000 to 000002 and the frame 000004 that has no label file. *)
Definition testing : KITTIDataset :=
  {| is_train := false;
     transforms := None;
     image_files :=
       ["000000.png"; "000001.png"; "000002.png"; "000004.png"]%string;
     label_files :=
       ["000000.txt"; "000001.txt"; "000002.txt"; "000004.txt"]%string;
     num_samples := 4;
     classes := ["Car"; "Cyclist"; "Pedestrian"]%string;
     flip_prob := 0; aug_prob := 0; gaussian_prob := 0; color_prob := 0;
     shift_scale := (2 # 10, 4 # 10);
     right_prob := 0; mosaic_prob := 0;
     num_classes := 3;
     input_width := 20; input_height := 10;
     output_width := 20; output_height := 10;
     max_objs := 3 |}.

(** A configuration whose training split has a name [__init__] does not
    know. *)
Definition odd_config : Cfg :=
  {| TRAIN_SPLIT := "minival"; TEST_SPLIT := "test";
     DETECT_CLASSES := ["Car"; "Cyclist"; "Pedestrian"]%string;
     FLIP_PROB_TRAIN := 0;
     SHIFT_SCALE_PROB_TRAIN := 0;
     GAUSSIAN_NOISE_PROB_TRAIN := 0;
     COLOR_CHANGE_PROB_TRAIN := 0;
     SHIFT_SCALE_TRAIN := (2 # 10, 4 # 10);
     USE_RIGHT_PROB_TRAIN := 0;
     MOSAIC_PROB_TRAIN := 0;
     WIDTH_TRAIN := 20; HEIGHT_TRAIN := 10; DOWN_RATIO := 1;
     MAX_OBJECTS := 3 |}.

(** Every jitter draw is a hit. *)
Definition shaking : KITTIDataset := dataset 3 0 1 0.

(** The names of an output directory, with a file that is no
    checkpoint. *)
Definition listing : list string :=
  ["model_0000300.pth"; "last_checkpoint"; "model_0000100.pth";
   "model_final.pth"]%string.

End Fixture.

(** * Properties *)

Local Open Scope nat_scope.

(** ** Inversion of the two monads *)

Lemma rbind_Ok {A B} (r : result A) (k : A -> result B) (b : B) :
  rbind r k = Ok b -> exists a, r = Ok a /\ k a = Ok b.
Proof. destruct r as [a|e]; simpl; [eauto | discriminate]. Qed.

Lemma bind_Ok {A B} (m : M A) (k : A -> M B) s b s' :
  bind m k s = (Ok b, s') ->
  exists a s1, m s = (Ok a, s1) /\ k a s1 = (Ok b, s').
Proof.
  unfold bind. destruct (m s) as [[a|e] s1]; [eauto | discriminate].
Qed.

Lemma lift_Ok {A} (r : result A) s a s' :
  lift r s = (Ok a, s') -> r = Ok a /\ s' = s.
Proof. unfold lift. intros [= -> ->]. auto. Qed.

Lemma ret_Ok {A} (a b : A) s s' : ret a s = (Ok b, s') -> b = a /\ s' = s.
Proof. unfold ret. intros [= -> ->]. auto. Qed.

Lemma get_item_Ok {A} (l : list A) i x : get_item l i = Ok x -> l !! i = Some x.
Proof. unfold get_item. destruct (l !! i); congruence. Qed.

Lemma get_item_error {A} (l : list A) i e :
  get_item l i = Raise e -> e = IndexError.
Proof. unfold get_item. destruct (l !! i); congruence. Qed.

Lemma set_item_Ok {A} (l l' : list A) i v :
  set_item l i v = Ok l' -> i < length l /\ l' = <[i := v]> l.
Proof.
  unfold set_item. destruct (i <? length l) eqn:E; [|discriminate].
  apply Nat.ltb_lt in E. intros [= <-]. auto.
Qed.

Lemma set_item_error {A} (l : list A) i v e :
  set_item l i v = Raise e -> e = IndexError /\ length l <= i.
Proof.
  unfold set_item. destruct (i <? length l) eqn:E; [discriminate|].
  apply Nat.ltb_ge in E. intros [= <-]. auto.
Qed.

(** Splits a successful sequence of steps into its steps. *)
Ltac invert_steps :=
  repeat match goal with
    | H : rbind _ _ = Ok _ |- _ =>
        apply rbind_Ok in H; destruct H as (? & ? & H)
    | H : bind _ _ _ = (Ok _, _) |- _ =>
        apply bind_Ok in H; destruct H as (? & ? & ? & H)
    | H : lift _ _ = (Ok _, _) |- _ =>
        apply lift_Ok in H; destruct H as [H ?]; subst
    | H : ret _ _ = (Ok _, _) |- _ =>
        apply ret_Ok in H; destruct H as [? ?]; subst
    | H : get_item _ _ = Ok _ |- _ => apply get_item_Ok in H
    | H : set_item _ _ _ = Ok _ |- _ =>
        apply set_item_Ok in H; destruct H as [? ?]; subst
    | H : Ok _ = Ok _ |- _ => injection H as H; subst
    end.

(** ** Storing one object *)

Section StoreFacts.
Context {X : Externals}.

Lemma store_Ok i e radius b b' :
  store i e radius b = Ok b' ->
  slot_at b' i = Some e /\
  (forall j, j <> i -> slot_at b' j = slot_at b j) /\
  (forall n, slots n b -> slots n b' /\ i < n).
Proof.
  unfold store. intros H. invert_steps. split; [|split].
  - unfold slot_at. simpl.
    rewrite !list_lookup_insert_eq by assumption. simpl.
    destruct e; reflexivity.
  - intros j Hj. unfold slot_at. simpl.
    rewrite !list_lookup_insert_ne by auto. reflexivity.
  - intros n Hn. destruct Hn. split; [|lia].
    constructor; simpl; rewrite length_insert; assumption.
Qed.
End StoreFacts.

Lemma last_cons_default {A} (l : list A) (a d : A) :
  List.last (a :: l) d = List.last l a.
Proof.
  revert a d. induction l as [|x l IH]; intros a d; [reflexivity|].
  change (List.last (a :: x :: l) d) with (List.last (x :: l) d).
  rewrite (IH x d), (IH x a). reflexivity.
Qed.

(** ** The loops over objects and sources *)

Section LoopFacts.
Context {X : Externals} (self : KITTIDataset) (L : Locals).

Lemma encode_object_Ok region Pm i a b b' :
  encode_object self L (output_transform self L) region Pm i a b = Ok b' ->
  slot_at b' i = after_object self L region Pm a (slot_at b i) /\
  (forall j, j <> i -> slot_at b' j = slot_at b j) /\
  (forall n, slots n b ->
     slots n b' /\ (accepted self L region Pm a = true -> i < n)).
Proof.
  unfold encode_object, after_object, accepted, keypoint, encoding.
    destruct (project self (flipped L) (affine L) (output_transform self L)
                Pm a) as [[pt e] r].
  simpl. destruct (in_region region pt).
  - intros H. apply store_Ok in H. destruct H as (H1 & H2 & H3).
    split; [assumption|]. split; [assumption|].
    intros n Hn. destruct (H3 n Hn). auto.
  - intros [= <-]. split; [reflexivity|]. split; [reflexivity|].
    intros n Hn. split; [assumption | discriminate].
Qed.

Lemma encode_source_Ok region Pm anns :
  forall i b b',
    encode_source self L (output_transform self L) region Pm i anns b = Ok b' ->
    (forall j, slot_at b' j =
       match (if i <=? j then anns !! (j - i) else None) with
       | Some a => after_object self L region Pm a (slot_at b j)
       | None => slot_at b j
       end) /\
    (forall n, slots n b ->
       slots n b' /\
       (forall k a, anns !! k = Some a ->
          accepted self L region Pm a = true -> i + k < n)).
Proof.
  induction anns as [|a rest IH]; intros i b b' H; simpl in H.
  - injection H as <-. split.
    + intros j. destruct (i <=? j); reflexivity.
    + intros n Hn. split; [assumption|]. intros k a Hk. discriminate.
  - invert_steps. rename x into b1.
    apply encode_object_Ok in H0. destruct H0 as (Hi & Hne & Hn1).
    apply IH in H. destruct H as (Hs & Hn2). split.
    + intros j. rewrite Hs.
      destruct (Nat.lt_trichotomy j i) as [Hlt | [-> | Hgt]].
      * replace (S i <=? j) with false by (symmetry; apply Nat.leb_gt; lia).
        replace (i <=? j) with false by (symmetry; apply Nat.leb_gt; lia).
        apply Hne. lia.
      * replace (S i <=? i) with false by (symmetry; apply Nat.leb_gt; lia).
        rewrite Nat.leb_refl, Nat.sub_diag. simpl. exact Hi.
      * replace (S i <=? j) with true by (symmetry; apply Nat.leb_le; lia).
        replace (i <=? j) with true by (symmetry; apply Nat.leb_le; lia).
        replace (j - i) with (S (j - S i)) by lia. simpl.
        rewrite (Hne j) by lia. reflexivity.
    + intros n Hn. destruct (Hn1 n Hn) as [Hb1 Hacc].
      destruct (Hn2 n Hb1) as [Hb' Hrest]. split; [assumption|].
      intros [|k] a' Hk Ha'; simpl in Hk.
      * injection Hk as <-. specialize (Hacc Ha'). lia.
      * specialize (Hrest k a' Hk Ha'). lia.
Qed.

Lemma encode_sources_Ok srcs :
  forall Pref b Pref' b',
    encode_sources self L (output_transform self L) srcs Pref b
      = Ok (Pref', b') ->
    (forall k, slot_at b' k = after_sources self L srcs k (slot_at b k)) /\
    Some Pref' =
      List.last (List.map (fun i => P_list L !! i) srcs) (Some Pref) /\
    (forall n, slots n b ->
       slots n b' /\
       (forall i k a region Pm,
          In i srcs -> object_of L i k a region Pm ->
          accepted self L region Pm a = true -> k < n)).
Proof.
  induction srcs as [|i rest IH]; intros Pref b Pref' b' H; simpl in H.
  - injection H as <- <-. split; [reflexivity|]. split; [reflexivity|].
    intros n Hn. split; [assumption|]. intros i k a r Pm [].
  - invert_steps. rename x into anns, x0 into region, x1 into ref, x2 into b1.
    apply encode_source_Ok in H3. destruct H3 as (Hs & Hn1).
    apply IH in H. destruct H as (Hr & Hlast & Hn2). split; [|split].
    + intros k. rewrite Hr. unfold after_sources. simpl. f_equal.
      rewrite Hs. unfold after_source. rewrite H0, H1, H2.
      simpl. rewrite Nat.sub_0_r. reflexivity.
    + rewrite Hlast. cbn [List.map]. rewrite last_cons_default, H2.
      reflexivity.
    + intros n Hn. destruct (Hn1 n Hn) as [Hb1 Hacc].
      destruct (Hn2 n Hb1) as [Hb' Hrest]. split; [assumption|].
      intros j k a r Pm [<- | Hin] Hobj Ha.
      * destruct Hobj as (anns' & ref' & E1 & E2 & E3 & E4 & ->).
        rewrite H0 in E1. rewrite H1 in E3. rewrite H2 in E4.
        injection E1 as <-. injection E3 as <-. injection E4 as <-.
        specialize (Hacc k a E2 Ha). lia.
      * eapply Hrest; eassumption.
Qed.
End LoopFacts.

(** ** Failures of the loops *)

Lemma rbind_Raise {A B} (r : result A) (k : A -> result B) (e : exn) :
  rbind r k = Raise e -> r = Raise e \/ exists a, r = Ok a /\ k a = Raise e.
Proof. destruct r as [a|e']; simpl; [eauto | intros [= ->]; auto]. Qed.

Ltac index_errors :=
  repeat match goal with
    | H : rbind _ _ = Raise _ |- _ =>
        apply rbind_Raise in H; destruct H as [H | (? & _ & H)]
    | H : get_item _ _ = Raise _ |- _ => exact (get_item_error _ _ _ H)
    | H : set_item _ _ _ = Raise _ |- _ =>
        exact (proj1 (set_item_error _ _ _ _ H))
    | H : Ok _ = Raise _ |- _ => discriminate H
    end.

Section LoopErrors.
Context {X : Externals} (self : KITTIDataset) (L : Locals).

Lemma store_error i e radius b ex :
  store i e radius b = Raise ex -> ex = IndexError.
Proof. unfold store. intros H. index_errors. Qed.

Lemma encode_source_error tm region Pm anns :
  forall i b ex,
    encode_source self L tm region Pm i anns b = Raise ex ->
    ex = IndexError.
Proof.
  induction anns as [|a rest IH]; intros i b ex H; simpl in H;
    [discriminate|].
  apply rbind_Raise in H. destruct H as [H | (b1 & _ & H)].
  - unfold encode_object in H.
    destruct (project self (flipped L) (affine L) tm Pm a) as [[pt e] r].
    destruct (in_region region pt); [|discriminate].
    eapply store_error; eassumption.
  - eapply IH; eassumption.
Qed.

Lemma encode_sources_error tm srcs :
  forall Pref b ex,
    encode_sources self L tm srcs Pref b = Raise ex -> ex = IndexError.
Proof.
  induction srcs as [|i rest IH]; intros Pref b ex H; simpl in H;
    [discriminate|].
  apply rbind_Raise in H. destruct H as [H | (anns & _ & H)];
    [index_errors|].
  apply rbind_Raise in H. destruct H as [H | (region & _ & H)];
    [index_errors|].
  apply rbind_Raise in H. destruct H as [H | (ref & _ & H)];
    [index_errors|].
  apply rbind_Raise in H. destruct H as [H | (b1 & _ & H)].
  - eapply encode_source_error; eassumption.
  - eapply IH; eassumption.
Qed.

Lemma new_buffers_slots : slots (max_objs self) (new_buffers self).
Proof. constructor; simpl; apply length_replicate. Qed.

Lemma new_buffers_empty k :
  k < max_objs self -> slot_at (new_buffers self) k = Some empty_slot.
Proof.
  intros Hk. unfold slot_at, new_buffers. simpl.
  rewrite !lookup_replicate_2 by assumption. reflexivity.
Qed.

(** Slot [k] after some rounds: untouched, or the encoding of an
    accepted annotation at position [k] of one of the sources. *)
Lemma after_sources_cases srcs k :
  forall old,
    after_sources self L srcs k old = old \/
    exists i a region Pm,
      In i srcs /\ object_of L i k a region Pm /\
      accepted self L region Pm a = true /\
      after_sources self L srcs k old = Some (encoding self L Pm a).
Proof.
  induction srcs as [|i rest IH]; intros old; [left; reflexivity|].
  unfold after_sources in *. simpl.
  assert (Hi : after_source self L i k old = old \/
               exists a region Pm,
                 object_of L i k a region Pm /\
                 accepted self L region Pm a = true /\
                 after_source self L i k old = Some (encoding self L Pm a)).
  { unfold after_source, object_of.
    destruct (anns_list L !! i) as [anns|] eqn:E1; [|auto].
    destruct (region_list L !! i) as [region|] eqn:E2; [|auto].
    destruct (P_list L !! i) as [ref|] eqn:E3; [|auto].
    destruct (anns !! k) as [a|] eqn:E4; [|auto].
    unfold after_object.
    destruct (accepted self L region (array_at (arrays L) ref) a) eqn:E5;
      [|auto].
    right. exists a, region, (array_at (arrays L) ref).
    split; [|auto]. exists anns, ref. auto. }
  destruct (IH (after_source self L i k old))
    as [Hsame | (j & a & region & Pm & Hin & Hobj & Hacc & Hres)].
  - rewrite Hsame. destruct Hi as [Hi | (a & region & Pm & Ho & Ha & Hi)].
    + left. assumption.
    + right. exists i, a, region, Pm. simpl. auto.
  - right. exists j, a, region, Pm. simpl. auto.
Qed.
End LoopErrors.

(** ** The loader *)


Section LoaderFacts.
Context {X : Externals} (env : Env) (self : KITTIDataset).

Lemma reshape_3_4_Ok values m : reshape_3_4 values = Ok m -> is_3x4 m.
Proof.
  unfold reshape_3_4, is_3x4.
  do 13 (destruct values as [|? values]; try discriminate).
  intros [= <-]. do 12 eexists. reflexivity.
Qed.

Lemma parse_matrix_Ok fields m : parse_matrix fields = Ok m -> is_3x4 m.
Proof.
  unfold parse_matrix. intros H. invert_steps.
  eapply reshape_3_4_Ok; eassumption.
Qed.

Lemma read_calib_Ok rows :
  forall P2 P3 o2 o3,
    read_calib rows P2 P3 = Ok (o2, o3) ->
    (forall m, P2 = Some m -> is_3x4 m) ->
    (forall m, P3 = Some m -> is_3x4 m) ->
    (forall m, o2 = Some m -> is_3x4 m) /\
    (forall m, o3 = Some m -> is_3x4 m).
Proof.
  induction rows as [|row rest IH]; intros P2 P3 o2 o3 H H2 H3; simpl in H.
  - injection H as <- <-. auto.
  - apply rbind_Ok in H. destruct H as (head & _ & H).
    destruct (String.eqb head "P2:").
    + apply rbind_Ok in H. destruct H as (m & Hm & H).
      apply parse_matrix_Ok in Hm.
      eapply IH; [eassumption | | assumption].
      intros m' [= <-]. assumption.
    + destruct (String.eqb head "P3:").
      * apply rbind_Ok in H. destruct H as (m & Hm & H).
        apply parse_matrix_Ok in Hm. injection H as <- <-.
        split; [assumption|]. intros m' [= <-]. assumption.
      * eapply IH; eassumption.
Qed.

Lemma open_csv_Ok d name rows s s' :
  open_csv env d name s = (Ok rows, s') ->
  csv_rows env d name = Some rows /\ s' = log_open d name s.
Proof.
  unfold open_csv. destruct (csv_rows env d name); intros [= <- <-]; auto.
Qed.

(** A successful load draws no random number, opens the label file (in
    training) and the calibration file, and returns 3x4 matrices. *)
Lemma load_annotations_Ok idx s anns P2 P3 s' :
  load_annotations env self idx s = (Ok (anns, P2, P3), s') ->
  exists f,
    label_files self !! idx = Some f /\
    rng_pos s' = rng_pos s /\
    opened s' =
      opened s ++ (if is_train self then [Opened label_dir f] else [])
               ++ [Opened calib_dir f] /\
    is_3x4 P2 /\ is_3x4 P3.
Proof.
  unfold load_annotations. intros H.
  apply bind_Ok in H. destruct H as (f & s0 & Hf & H).
  apply lift_Ok in Hf. destruct Hf as [Hf ->]. apply get_item_Ok in Hf.
  apply bind_Ok in H. destruct H as (annotations & s1 & Hanns & H).
  apply bind_Ok in H. destruct H as (rows & s2 & Hrows & H).
  apply open_csv_Ok in Hrows. destruct Hrows as [_ ->].
  apply bind_Ok in H. destruct H as (calib & s3 & Hcalib & H).
  apply lift_Ok in Hcalib. destruct Hcalib as [Hcalib ->].
  apply bind_Ok in H. destruct H as ([P2' P3'] & s4 & Hbound & H).
  apply lift_Ok in Hbound. destruct Hbound as [Hbound ->].
  apply ret_Ok in H. destruct H as [[= -> -> ->] ->].
  assert (Hs : rng_pos s1 = rng_pos s /\
               opened s1 = opened s ++
                 (if is_train self then [Opened label_dir f] else [])).
  { destruct (is_train self).
    - apply bind_Ok in Hanns. destruct Hanns as (lrows & s5 & Hl & Hanns).
      apply open_csv_Ok in Hl. destruct Hl as [_ ->].
      apply lift_Ok in Hanns. destruct Hanns as [_ ->]. simpl. auto.
    - apply ret_Ok in Hanns. destruct Hanns as [_ ->].
      rewrite app_nil_r. auto. }
  destruct Hs as [Hpos Hlog].
  exists f. split; [assumption|]. simpl. split; [assumption|].
  split; [rewrite Hlog, <- app_assoc; reflexivity|].
  destruct calib as [o2 o3].
  destruct (read_calib_Ok _ _ _ _ _ Hcalib) as [Ho2 Ho3]; try discriminate.
  unfold bound_matrices in Hbound.
  destruct o2 as [m2|]; [|discriminate].
  destruct o3 as [m3|]; [|discriminate].
  injection Hbound as <- <-. auto.
Qed.
End LoaderFacts.

(** ** The augmentation steps *)

Section AugmentationFacts.
Context {X : Externals} (env : Env) (self : KITTIDataset).

Lemma train_draw_Ok prob s hit s' :
  train_draw env self prob s = (Ok hit, s') ->
  (is_train self = true /\
   hit = Qltb (rand_unit env (rng_pos s)) prob /\ s' = next_draw s) \/
  (is_train self = false /\ hit = false /\ s' = s).
Proof.
  unfold train_draw. destruct (is_train self).
  - intros H. apply bind_Ok in H. destruct H as (u & s1 & Hu & H).
    unfold random in Hu. injection Hu as <- <-.
    apply ret_Ok in H. destruct H as [-> ->]. left. auto.
  - intros H. apply ret_Ok in H. destruct H as [-> ->]. right. auto.
Qed.

Lemma Image_open_Ok d name im s s' :
  Image_open env d name s = (Ok im, s') ->
  image_size_at env d name = Some (img_size im) /\
  img_ops im = [] /\ s' = log_open d name s.
Proof.
  unfold Image_open. destruct (image_size_at env d name);
    intros [= <- <-]; auto.
Qed.

(** After lines 86-106. *)
Lemma select_view_Ok idx s L s' :
  select_view env self idx s = (Ok L, s') ->
  exists anns P2 P3 s1,
    load_annotations env self idx s = (Ok (anns, P2, P3), s1) /\
    flipped L = false /\ affine L = false /\
    arrays L = [P2; P3] /\
    P L = (if use_left L then 0 else 1) /\
    P_list L = [P L] /\
    anns_list L = [anns] /\
    region_list L =
      [(0%Q, Qof (output_width self), 0%Q, Qof (output_height self))] /\
    center L = ((Qof (fst (img_size (img L))) / 2)%Q,
                (Qof (snd (img_size (img L))) / 2)%Q) /\
    size L = (Qof (fst (img_size (img L))), Qof (snd (img_size (img L)))) /\
    (use_left L = false -> is_train self = true).
Proof.
  unfold select_view. intros H.
  apply bind_Ok in H. destruct H as (name & s0 & Hname & H).
  apply lift_Ok in Hname. destruct Hname as [_ ->].
  apply bind_Ok in H. destruct H as ([[anns P2] P3] & s1 & Hload & H).
  apply bind_Ok in H. destruct H as (right & s2 & Hright & H).
  apply bind_Ok in H. destruct H as (iname & s3 & Hin & H).
  apply lift_Ok in Hin. destruct Hin as [_ ->].
  apply bind_Ok in H. destruct H as (im & s4 & Him & H).
  destruct (img_size im) as [w h] eqn:Hwh.
  apply ret_Ok in H. destruct H as [-> ->].
  exists anns, P2, P3, s1. simpl. rewrite Hwh. simpl.
  split; [assumption|].
  destruct right; simpl; repeat split; auto.
  - intros _. apply train_draw_Ok in Hright.
    destruct Hright as [(Ht & _) | (_ & Hf & _)]; [assumption|discriminate].
  - discriminate.
Qed.

(** After lines 112-117: nothing changes, or the flip is applied. *)
Lemma flip_step_Ok L s L' s' :
  flip_step env self L s = (Ok L', s') ->
  L' = L \/
  (is_train self = true /\ use_left L = true /\
   flipped L' = true /\ use_left L' = true /\ affine L' = affine L /\
   center L' = (flip_coord (fst (size L)) (fst (center L)),
                snd (center L)) /\
   size L' = size L /\
   arrays L' =
     <[P L := mat_set (array_at (arrays L) (P L)) 0 2
                (flip_coord (fst (size L))
                   (mat_get (array_at (arrays L) (P L)) 0 2))]>
       (arrays L) /\
   P L' = P L /\ P_list L' = P_list L /\
   anns_list L' = anns_list L /\ region_list L' = region_list L /\
   img_size (img L') = img_size (img L)).
Proof.
  unfold flip_step. intros H.
  apply bind_Ok in H. destruct H as (hit & s1 & Hhit & H).
  destruct (hit && use_left L) eqn:E.
  - apply ret_Ok in H. destruct H as [-> ->].
    apply andb_prop in E. destruct E as [-> Hleft].
    right. simpl. apply train_draw_Ok in Hhit.
    destruct Hhit as [(Ht & _) | (_ & Hf & _)]; [|discriminate].
    repeat split; auto.
  - apply ret_Ok in H. destruct H as [-> ->]. left. reflexivity.
Qed.

(** After lines 119-128: nothing changes, or the jitter is applied. *)
Lemma jitter_step_Ok L s L' s' :
  jitter_step env self L s = (Ok L', s') ->
  L' = L \/
  (is_train self = true /\
   affine L' = true /\ flipped L' = flipped L /\
   use_left L' = use_left L /\ arrays L' = arrays L /\
   P L' = P L /\ P_list L' = P_list L /\
   anns_list L' = anns_list L /\ region_list L' = region_list L /\
   img L' = img L).
Proof.
  unfold jitter_step. intros H.
  apply bind_Ok in H. destruct H as (hit & s1 & Hhit & H).
  destruct hit.
  - destruct (shift_scale self) as [shift scale].
    apply bind_Ok in H. destruct H as (dx & s2 & _ & H).
    apply bind_Ok in H. destruct H as (dy & s3 & _ & H).
    apply bind_Ok in H. destruct H as (k & s4 & _ & H).
    apply ret_Ok in H. destruct H as [-> ->].
    right. simpl. apply train_draw_Ok in Hhit.
    destruct Hhit as [(Ht & _) | (_ & Hf & _)]; [|discriminate].
    repeat split; auto.
  - apply ret_Ok in H. destruct H as [-> ->]. left. reflexivity.
Qed.

(** After lines 152-155: only the image changes. *)
Lemma photometric_step_Ok L s L' s' :
  photometric_step env self L s = (Ok L', s') ->
  flipped L' = flipped L /\ affine L' = affine L /\
  use_left L' = use_left L /\ center L' = center L /\ size L' = size L /\
  arrays L' = arrays L /\ P L' = P L /\ P_list L' = P_list L /\
  anns_list L' = anns_list L /\ region_list L' = region_list L /\
  img_size (img L') = img_size (img L).
Proof.
  unfold photometric_step. intros H.
  apply bind_Ok in H. destruct H as (noise & s1 & _ & H).
  apply bind_Ok in H. destruct H as (colour & s2 & _ & H).
  apply ret_Ok in H. destruct H as [-> ->]. simpl. repeat split.
  destruct noise, colour; reflexivity.
Qed.
End AugmentationFacts.

Section MosaicFacts.
Context {X : Externals} (env : Env) (self : KITTIDataset).

(** After lines 130-150: the step is passed over, or one partner is
    drawn and loaded and then composed or not. *)
Lemma mosaic_step_Ok L s L' s' :
  mosaic_step env self L s = (Ok L', s') ->
  (mosaic_guard self L = false /\ L' = L /\ s' = s) \/
  (mosaic_guard self L = true /\
   exists manns mP2 mP3 s1 name wh,
     let mosaic_idx := rand_int env (rng_pos s) mod num_samples self in
     mosaic_idx < num_samples self /\
     load_annotations env self mosaic_idx (next_draw s)
       = (Ok (manns, mP2, mP3), s1) /\
     image_files self !! mosaic_idx = Some name /\
     image_size_at env (partner_dir L) name = Some wh /\
     flipped L' = flipped L /\ affine L' = affine L /\
     use_left L' = use_left L /\ center L' = center L /\
     size L' = size L /\ P L' = P L /\
     img_size (img L') = img_size (img L) /\
     arrays L' = arrays L ++ [mP2; mP3] /\
     ((same_size wh (img_size (img L)) = false /\
       s' = log_open (partner_dir L) name s1 /\
       img L' = img L /\ P_list L' = P_list L /\
       anns_list L' = anns_list L /\ region_list L' = region_list L) \/
      (same_size wh (img_size (img L)) = true /\
       s' = next_draw (log_open (partner_dir L) name s1) /\
       P_list L' =
         P_list L ++ [if use_left L then length (arrays L)
                      else S (length (arrays L))] /\
       anns_list L' = anns_list L ++ [manns] /\
       region_list L' =
         let r := split_fraction env (rng_pos s1) in
         let ow := Qof (output_width self) in
         let oh := Qof (output_height self) in
         [(0, r * ow, 0, oh); (r * ow, ow, 0, oh)]%Q))).
Proof.
  unfold mosaic_step. intros H.
  destruct (mosaic_guard self L) eqn:G.
  2:{ apply ret_Ok in H. destruct H as [-> ->]. left. auto. }
  right. split; [reflexivity|].
  apply bind_Ok in H. destruct H as (midx & s0 & Hidx & H).
  unfold choice in Hidx. injection Hidx as Hidx <-.
  apply get_item_Ok in Hidx. rewrite length_seq in Hidx.
  apply lookup_seq in Hidx. destruct Hidx as [-> Hlt]. simpl in *.
  apply bind_Ok in H. destruct H as ([[manns mP2] mP3] & s1 & Hload & H).
  apply bind_Ok in H. destruct H as (name & s2 & Hname & H).
  apply lift_Ok in Hname. destruct Hname as [Hname ->].
  apply get_item_Ok in Hname.
  apply bind_Ok in H. destruct H as (mimg & s3 & Hopen & H).
  fold (partner_dir L) in Hopen, H.
  apply Image_open_Ok in Hopen. destruct Hopen as (Hsize & _ & ->).
  exists manns, mP2, mP3, s1, name, (img_size mimg).
  split; [assumption|]. split; [assumption|]. split; [assumption|].
  split; [assumption|].
  destruct (same_size (img_size mimg) (img_size (img L))) eqn:E.
  - apply bind_Ok in H. destruct H as (r & s4 & Hr & H).
    unfold uniform in Hr. injection Hr as <- <-.
    apply ret_Ok in H. destruct H as [-> ->]. simpl.
    repeat split; auto. right. repeat split; auto.
  - apply ret_Ok in H. destruct H as [-> ->]. simpl.
    repeat split; auto. left. repeat split; auto.
Qed.
End MosaicFacts.

(** ** The whole augmentation *)

Section AugmentFacts.
Context {X : Externals} (env : Env) (self : KITTIDataset).

Lemma augment_steps idx s L s' :
  augment env self idx s = (Ok L, s') ->
  exists L0 s0 L1 s1 L2 s2 L3 s3,
    select_view env self idx s = (Ok L0, s0) /\
    flip_step env self L0 s0 = (Ok L1, s1) /\
    jitter_step env self L1 s1 = (Ok L2, s2) /\
    mosaic_step env self L2 s2 = (Ok L3, s3) /\
    photometric_step env self L3 s3 = (Ok L, s').
Proof.
  unfold augment. intros H.
  apply bind_Ok in H. destruct H as (L0 & s0 & H0 & H).
  apply bind_Ok in H. destruct H as (L1 & s1 & H1 & H).
  apply bind_Ok in H. destruct H as (L2 & s2 & H2 & H).
  apply bind_Ok in H. destruct H as (L3 & s3 & H3 & H).
  exists L0, s0, L1, s1, L2, s2, L3, s3. auto.
Qed.

(** What the loops of the target assembly are run on: one source with
    the full grid, or (only in training, with neither flip nor jitter)
    two sources with the two parts of the grid, the second with the
    matrix of the partner. *)
Lemma augment_Ok idx s L s' :
  augment env self idx s = (Ok L, s') ->
  exists anns P2 P3 s1,
    load_annotations env self idx s = (Ok (anns, P2, P3), s1) /\
    (flipped L = true -> use_left L = true) /\
    ((anns_list L = [anns] /\ region_list L = [full_grid self] /\
      P_list L = [P L] /\
      array_at (arrays L) (P L) =
        (if flipped L
         then mirrored (Qof (fst (img_size (img L))))
                (view_matrix (use_left L) P2 P3)
         else view_matrix (use_left L) P2 P3)) \/
     (is_train self = true /\ Qltb 0 (mosaic_prob self) = true /\
      flipped L = false /\ affine L = false /\
      exists midx manns mP2 mP3 s2 s3 k ref,
        load_annotations env self midx s2 = (Ok (manns, mP2, mP3), s3) /\
        anns_list L = [anns; manns] /\
        region_list L =
          [left_part self (split_fraction env k);
           right_part self (split_fraction env k)] /\
        P_list L = [P L; ref] /\
        array_at (arrays L) (P L) = view_matrix (use_left L) P2 P3 /\
        array_at (arrays L) ref = view_matrix (use_left L) mP2 mP3)).
Proof.
  intros H. apply augment_steps in H.
  destruct H as (L0 & s0 & L1 & s1 & L2 & s2 & L3 & s3 &
                 H0 & H1 & H2 & H3 & H4).
  apply select_view_Ok in H0.
  destruct H0 as (anns & P2 & P3 & t1 & Hload & F0 & A0 & Harr & HP &
                  HPl & Hanns & Hreg & Hc & Hsz & _).
  apply photometric_step_Ok in H4.
  destruct H4 as (Ef & Ea & Eu & _ & _ & Earr & EP & EPl & Eanns & Ereg &
                  Eimg).
  exists anns, P2, P3, t1. split; [assumption|].
  rewrite Ef, Ea, Eu, Earr, EP, EPl, Eanns, Ereg, Eimg.
  assert (Hview : array_at (arrays L0) (P L0)
                  = view_matrix (use_left L0) P2 P3).
  { rewrite Harr, HP. destruct (use_left L0); reflexivity. }
  assert (Hsz0 : fst (size L0) = Qof (fst (img_size (img L0)))).
  { rewrite Hsz. reflexivity. }
  assert (H01 : (flipped L1 = true -> use_left L1 = true) /\
                anns_list L1 = [anns] /\ region_list L1 = [full_grid self] /\
                P_list L1 = [P L1] /\ length (arrays L1) = 2 /\
                P L1 = (if use_left L1 then 0 else 1) /\
                img_size (img L1) = img_size (img L0) /\
                affine L1 = false /\
                array_at (arrays L1) (P L1) =
                  (if flipped L1
                   then mirrored (fst (size L0))
                          (view_matrix (use_left L1) P2 P3)
                   else view_matrix (use_left L1) P2 P3)).
  { apply flip_step_Ok in H1.
    destruct H1 as [-> | (_ & Hl & Hf & Hl' & Ha' & _ & _ & Harr' & HP' &
                          HPl' & Hanns' & Hreg' & Himg')].
    - rewrite F0. repeat split; auto; try (intros; discriminate).
      rewrite Harr. reflexivity.
    - rewrite Hl in HP.
      rewrite Hf, Hl', HP', HPl', Hanns', Hreg', Harr', Ha', Harr, HP.
      repeat split; auto. rewrite HPl, HP. reflexivity. }
  assert (H12 : (flipped L2 = true -> use_left L2 = true) /\
                anns_list L2 = [anns] /\ region_list L2 = [full_grid self] /\
                P_list L2 = [P L2] /\ length (arrays L2) = 2 /\
                P L2 = (if use_left L2 then 0 else 1) /\
                img_size (img L2) = img_size (img L0) /\
                array_at (arrays L2) (P L2) =
                  (if flipped L2
                   then mirrored (fst (size L0))
                          (view_matrix (use_left L2) P2 P3)
                   else view_matrix (use_left L2) P2 P3)).
  { destruct H01 as (I1 & I2 & I3 & I4 & I5 & I6 & I7 & _ & I8).
    apply jitter_step_Ok in H2.
    destruct H2 as [-> | (_ & _ & Hf & Hl & Harr' & HP' & HPl' & Hanns' &
                          Hreg' & Himg')].
    - repeat split; assumption.
    - rewrite Hf, Hl, Harr', HP', HPl', Hanns', Hreg', Himg'.
      repeat split; assumption. }
  clear H01.
  destruct H12 as (Hflip & Hanns2 & Hreg2 & HPl2 & Hlen2 & HP2 & Himg2 &
                   Hmat2).
  assert (Hprim : forall tail,
            array_at (arrays L2 ++ tail) (P L2) = array_at (arrays L2) (P L2)).
  { intros tail. unfold array_at. rewrite lookup_app_l; [reflexivity|].
    rewrite Hlen2, HP2. destruct (use_left L2); lia. }
  apply mosaic_step_Ok in H3.
  destruct H3 as [(G & -> & ->) |
                  (G & manns & mP2 & mP3 & t2 & name & wh & Hlt & Hload2 &
                   Hname & Hwh & Mf & Ma & Mu & Mc & Ms & MP & Mimg &
                   Marr & Hcases)].
  - split; [assumption|]. left. repeat split; auto.
    rewrite Hmat2, Hsz0, Himg2. reflexivity.
  - rewrite Mf, Mu, MP, Mimg, Marr, Ma. split; [assumption|].
    destruct Hcases as [(_ & _ & _ & MPl & Manns & Mreg) |
                        (_ & _ & MPl & Manns & Mreg)].
    + left. rewrite MPl, Manns, Mreg, Hprim, Hmat2, Hsz0, Himg2.
      repeat split; auto.
    + right. unfold mosaic_guard in G.
      apply andb_prop in G. destruct G as [G Gf].
      apply andb_prop in G. destruct G as [G Ga].
      apply andb_prop in G. destruct G as [Gt Gm].
      apply negb_true_iff in Gf, Ga.
      repeat split; auto.
      exists (rand_int env (rng_pos s2) mod num_samples self),
             manns, mP2, mP3, (next_draw s2), t2, (rng_pos t2),
             (if use_left L2 then length (arrays L2)
              else S (length (arrays L2))).
      rewrite MPl, Manns, Mreg, Hprim, Hmat2, Gf, Hanns2, HPl2.
      repeat split; auto.
      unfold array_at. rewrite Hlen2.
      destruct (use_left L2).
      * rewrite lookup_app_r by lia. rewrite Hlen2. reflexivity.
      * rewrite lookup_app_r by lia. rewrite Hlen2. reflexivity.
Qed.
End AugmentFacts.

(** ** Slot assignment (claims C1, C2, C6 and C9) *)

Section SlotClaims.
Context {X : Externals} (env : Env) (self : KITTIDataset).

Lemma after_sources_app L l1 l2 k old :
  after_sources self L (l1 ++ l2) k old =
  after_sources self L l2 k (after_sources self L l1 k old).
Proof. unfold after_sources. apply fold_left_app. Qed.

Lemma object_of_source L i k a region Pm :
  object_of L i k a region Pm -> i < length (anns_list L).
Proof.
  intros (anns & ref & E & _). eapply lookup_lt_Some. eassumption.
Qed.

(** The slots after the loops on fresh buffers. *)
Lemma assemble_Ok L Pref b :
  assemble self L = Ok (Pref, b) ->
  slots (max_objs self) b /\
  (forall k, slot_at b k =
     after_sources self L (seq 0 (length (anns_list L))) k
       (slot_at (new_buffers self) k)) /\
  (forall i k a region Pm,
     object_of L i k a region Pm ->
     accepted self L region Pm a = true -> k < max_objs self) /\
  Some Pref =
    List.last (List.map (fun i => P_list L !! i)
                 (seq 0 (length (anns_list L)))) (Some (P L)).
Proof.
  unfold assemble. intros H. apply encode_sources_Ok in H.
  destruct H as (Hs & Hlast & Hn).
  destruct (Hn _ (new_buffers_slots self)) as [Hb Hacc].
  split; [assumption|]. split; [assumption|]. split; [|assumption].
  intros i k a region Pm Hobj Ha. eapply Hacc; try eassumption.
  apply in_seq. pose proof (object_of_source _ _ _ _ _ _ Hobj). lia.
Qed.

(** An accepted annotation at position [k] of source [i] is in slot
    [k] at the end, unless a later source has an accepted annotation at
    the same position. *)
Lemma accepted_object_final_slot L n i k a region Pm old :
  i < n -> object_of L i k a region Pm ->
  accepted self L region Pm a = true ->
  after_sources self L (seq 0 n) k old = Some (encoding self L Pm a) \/
  exists j a' region' Pm',
    i < j /\ object_of L j k a' region' Pm' /\
    accepted self L region' Pm' a' = true /\
    after_sources self L (seq 0 n) k old = Some (encoding self L Pm' a').
Proof.
  intros Hi Hobj Hacc.
  replace n with (i + S (n - S i)) by lia.
  rewrite seq_app, after_sources_app. simpl.
  change (after_sources self L (i :: seq (S i) (n - S i)) k
            (after_sources self L (seq 0 i) k old))
    with (after_sources self L (seq (S i) (n - S i)) k
            (after_source self L i k
               (after_sources self L (seq 0 i) k old))).
  assert (Hown : forall o,
            after_source self L i k o = Some (encoding self L Pm a)).
  { intros o. destruct Hobj as (anns & ref & E1 & E2 & E3 & E4 & ->).
    unfold after_source, after_object.
    rewrite E1, E3, E4, E2, Hacc. reflexivity. }
  rewrite Hown.
  destruct (after_sources_cases self L (seq (S i) (n - S i)) k
              (Some (encoding self L Pm a)))
    as [-> | (j & a' & region' & Pm' & Hj & Ho & Ha & ->)].
  - left. reflexivity.
  - right. exists j, a', region', Pm'. apply in_seq in Hj.
    repeat split; auto. lia.
Qed.

(** C1 (as amended).  In the loop over one source image, an accepted
    annotation is written to the slot whose index is its position in
    the annotation list of that image, and the slot of any other
    position is left as it was: the accepted objects of one source
    occupy distinct slots. *)
Theorem accepted_object_slot_is_its_position L region Pm anns b b' :
  encode_source self L (output_transform self L) region Pm 0 anns b
    = Ok b' ->
  forall k,
    slot_at b' k =
      match anns !! k with
      | Some a =>
          if accepted self L region Pm a
          then Some (encoding self L Pm a)
          else slot_at b k
      | None => slot_at b k
      end.
Proof.
  intros H k. apply encode_source_Ok in H. destruct H as [Hs _].
  rewrite Hs. simpl. rewrite Nat.sub_0_r. reflexivity.
Qed.


End SlotClaims.

Lemma Qltb_lt (x y : Q) : Qltb x y = true <-> (x < y)%Q.
Proof.
  unfold Qltb. rewrite negb_true_iff. split.
  - intros H. apply Qnot_le_lt. intros Hle.
    apply Qle_bool_iff in Hle. congruence.
  - intros H. destruct (Qle_bool y x) eqn:E; [|reflexivity].
    apply Qle_bool_iff in E. exfalso. exact (Qlt_not_le _ _ H E).
Qed.

Lemma in_region_strict (r : Region) (p : Vec2) :
  in_region r p = true <->
  let '(x_lo, x_hi, y_lo, y_hi) := r in
  ((x_lo < fst p)%Q /\ (fst p < x_hi)%Q) /\
  ((y_lo < snd p)%Q /\ (snd p < y_hi)%Q).
Proof.
  destruct r as [[[x_lo x_hi] y_lo] y_hi]. unfold in_region.
  rewrite !andb_true_iff, !Qltb_lt. reflexivity.
Qed.

Lemma slot_at_masks b k e :
  slot_at b k = Some e ->
  reg_mask b !! k = Some (e_reg_mask e) /\
  flip_mask b !! k = Some (e_flip_mask e).
Proof.
  unfold slot_at. intros H.
  destruct (cls_ids b !! k); [simpl in H|discriminate].
  destruct (regression b !! k); [simpl in H|discriminate].
  destruct (proj_points b !! k); [simpl in H|discriminate].
  destruct (p_offsets b !! k); [simpl in H|discriminate].
  destruct (dimensions b !! k); [simpl in H|discriminate].
  destruct (locations b !! k); [simpl in H|discriminate].
  destruct (rotys b !! k); [simpl in H|discriminate].
  destruct (reg_mask b !! k); [simpl in H|discriminate].
  destruct (flip_mask b !! k); [simpl in H|discriminate].
  destruct (regression_2d b !! k); [simpl in H|discriminate].
  destruct (p_2d_offsets b !! k); [simpl in H|discriminate].
  destruct (p_2d_whs b !! k); [simpl in H|discriminate].
  injection H as <-. simpl. auto.
Qed.

Section MaskClaims.
Context {X : Externals} (env : Env) (self : KITTIDataset).

Lemma encoding_masks L Pm a :
  e_reg_mask (encoding self L Pm a) = (if affine L then 0 else 1) /\
  e_flip_mask (encoding self L Pm a)
    = (if flipped L && negb (affine L) then 1 else 0).
Proof.
  unfold encoding, project.
  destruct (encode_label Pm _ (a_dimensions a) _) as [[pt box2d] box3d].
  simpl. destruct (affine L), (flipped L); auto.
Qed.

(** C6.  In a training sample every accepted object has
    regression-validity 0 if the jitter was applied and 1 if it was not,
    and flip-validity 1 exactly when the sample was flipped and not
    jittered. *)
Theorem masks_follow_jitter_and_flip L Pref b i k a region Pm :
  assemble self L = Ok (Pref, b) ->
  object_of L i k a region Pm ->
  accepted self L region Pm a = true ->
  reg_mask b !! k = Some (if affine L then 0 else 1) /\
  flip_mask b !! k = Some (if flipped L && negb (affine L) then 1 else 0).
Proof.
  intros Hasm Hobj Hacc.
  apply assemble_Ok in Hasm. destruct Hasm as (_ & Hs & _ & _).
  pose proof (object_of_source _ _ _ _ _ _ Hobj) as Hi.
  destruct (accepted_object_final_slot self L _ i k a region Pm
              (slot_at (new_buffers self) k) Hi Hobj Hacc)
    as [Hk | (j & a' & region' & Pm' & _ & _ & _ & Hk)];
    rewrite <- Hs in Hk; apply slot_at_masks in Hk;
    destruct Hk as [Hr Hf]; rewrite Hr, Hf.
  - destruct (encoding_masks L Pm a) as [-> ->]. auto.
  - destruct (encoding_masks L Pm' a') as [-> ->]. auto.
Qed.

Lemma augment_regions idx s L s' :
  augment env self idx s = (Ok L, s') ->
  (length (anns_list L) = 1 /\ region_list L = [full_grid self]) \/
  (exists k,
     length (anns_list L) = 2 /\
     region_list L = [left_part self (split_fraction env k);
                      right_part self (split_fraction env k)]).
Proof.
  intros H. apply augment_Ok in H.
  destruct H as (anns & P2 & P3 & s1 & _ & _ & [H | H]).
  - destruct H as (Ha & Hr & _). left. rewrite Ha, Hr. auto.
  - destruct H as (_ & _ & _ & _ & midx & manns & mP2 & mP3 & s2 & s3 &
                   k & ref & _ & Ha & Hr & _).
    right. exists k. rewrite Ha, Hr. auto.
Qed.

(** C9.  An annotation is stored in a slot exactly when its keypoint on
    the output grid is strictly inside, on both axes, the region of its
    source image: the full grid for a sample of one source, the columns
    left and right of the split for the primary image and its partner.
    A slot holds the encoding of an accepted annotation at its position
    or is as [np.zeros] left it; an accepted annotation is in the slot
    of its position unless a later source has one at that position. *)
Theorem stored_iff_keypoint_strictly_inside idx s L s' Pref b :
  augment env self idx s = (Ok L, s') ->
  assemble self L = Ok (Pref, b) ->
  ((length (anns_list L) = 1 /\ region_list L = [full_grid self]) \/
   (exists k,
      length (anns_list L) = 2 /\
      region_list L = [left_part self (split_fraction env k);
                       right_part self (split_fraction env k)])) /\
  (forall region Pm a,
     accepted self L region Pm a = true <->
     let '(x_lo, x_hi, y_lo, y_hi) := region in
     ((x_lo < fst (keypoint self L Pm a))%Q /\
      (fst (keypoint self L Pm a) < x_hi)%Q) /\
     ((y_lo < snd (keypoint self L Pm a))%Q /\
      (snd (keypoint self L Pm a) < y_hi)%Q)) /\
  (forall k, k < max_objs self ->
     slot_at b k = Some empty_slot \/
     exists i a region Pm,
       object_of L i k a region Pm /\
       accepted self L region Pm a = true /\
       slot_at b k = Some (encoding self L Pm a)) /\
  (forall i k a region Pm,
     object_of L i k a region Pm ->
     accepted self L region Pm a = true ->
     slot_at b k = Some (encoding self L Pm a) \/
     exists j a' region' Pm',
       i < j /\ object_of L j k a' region' Pm' /\
       accepted self L region' Pm' a' = true /\
       slot_at b k = Some (encoding self L Pm' a')).
Proof.
  intros Haug Hasm.
  apply assemble_Ok in Hasm. destruct Hasm as (_ & Hs & _ & _).
  split; [eapply augment_regions; eassumption|].
  split; [intros region Pm a; apply in_region_strict|].
  split.
  - intros k Hk. rewrite Hs, (new_buffers_empty self k Hk).
    destruct (after_sources_cases self L (seq 0 (length (anns_list L))) k
                (Some empty_slot))
      as [-> | (i & a & region & Pm & _ & Ho & Ha & ->)].
    + left. reflexivity.
    + right. exists i, a, region, Pm. auto.
  - intros i k a region Pm Hobj Hacc. rewrite Hs.
    eapply accepted_object_final_slot; [|eassumption|assumption].
    eapply object_of_source; eassumption.
Qed.
End MaskClaims.

(** ** Flip (claims C7 and C8) *)

Section FlipClaims.
Context {X : Externals} (env : Env) (self : KITTIDataset).

End FlipClaims.


(** ** The calibration matrix of the target (claim C10) *)

Section TargetClaims.
Context {X : Externals} (env : Env) (self : KITTIDataset).

Lemma train_target_P im trans_mat Pext b :
  get_field "P" (train_target self im trans_mat Pext b)
    = Some (FMatrix Pext).
Proof. reflexivity. Qed.

Lemma getitem_train idx s im t name s' :
  is_train self = true -> transforms self = None ->
  getitem env self idx s = (Ok (im, t, name), s') ->
  exists L Pref b,
    augment env self idx s = (Ok L, s') /\
    assemble self L = Ok (Pref, b) /\
    t = train_target self im (output_transform self L)
          (extend_P (array_at (arrays L) Pref)) b.
Proof.
  intros Ht Hhook H. unfold getitem in H.
  apply bind_Ok in H. destruct H as (L & s1 & Haug & H).
  apply lift_Ok in H. destruct H as [H ->].
  unfold finish in H. rewrite Ht in H. simpl in H.
  apply rbind_Ok in H. destruct H as ([Pref b] & Hasm & H).
  unfold run_transforms in H. rewrite Hhook in H.
  injection H as <- <- _.
  exists L, Pref, b. auto.
Qed.

(** C10.  In a training sample composed of two sources, the field ["P"]
    of the target is the extended matrix of the partner (the last entry
    of [P_list]), not that of the primary image; it is the matrix of
    the primary image (mirrored when flipped) only in a sample of one
    source. *)
Theorem target_P_is_matrix_of_last_source idx s im t name s' :
  is_train self = true -> transforms self = None ->
  getitem env self idx s = (Ok (im, t, name), s') ->
  exists L anns P2 P3 s1,
    augment env self idx s = (Ok L, s') /\
    load_annotations env self idx s = (Ok (anns, P2, P3), s1) /\
    ((anns_list L = [anns] /\
      get_field "P" t =
        Some (FMatrix
                (extend_P
                   (if flipped L
                    then mirrored (Qof (fst (img_size (img L))))
                           (view_matrix (use_left L) P2 P3)
                    else view_matrix (use_left L) P2 P3)))) \/
     (exists midx manns mP2 mP3 s2 s3,
        load_annotations env self midx s2 = (Ok (manns, mP2, mP3), s3) /\
        anns_list L = [anns; manns] /\
        get_field "P" t =
          Some (FMatrix (extend_P (view_matrix (use_left L) mP2 mP3))))).
Proof.
  intros Ht Hhook H.
  apply getitem_train in H; try assumption.
  destruct H as (L & Pref & b & Haug & Hasm & ->).
  apply assemble_Ok in Hasm. destruct Hasm as (_ & _ & _ & Hlast).
  destruct (augment_Ok env self idx s L s' Haug)
    as (anns & P2 & P3 & s1 & Hload & _ & Hcases).
  exists L, anns, P2, P3, s1. split; [assumption|]. split; [assumption|].
  rewrite train_target_P.
  destruct Hcases as [(Ha & _ & HPl & Hmat) |
                      (_ & _ & _ & _ & midx & manns & mP2 & mP3 & s2 & s3 &
                       k & ref & Hload2 & Ha & _ & HPl & _ & Hmat)].
  - left. split; [assumption|].
    rewrite Ha, HPl in Hlast. simpl in Hlast. injection Hlast as ->.
    rewrite Hmat. reflexivity.
  - right. exists midx, manns, mP2, mP3, s2, s3.
    split; [assumption|]. split; [assumption|].
    rewrite Ha, HPl in Hlast. simpl in Hlast. injection Hlast as ->.
    rewrite Hmat. reflexivity.
Qed.
End TargetClaims.

(** ** Mosaic composition (claims C3 and C4) *)

(** The mosaic step is entered only in training, with a positive
    probability, and when neither flip nor jitter was applied. *)
Lemma mosaic_only_without_flip_and_jitter (self : KITTIDataset) (L : Locals) :
  mosaic_guard self L = true ->
  is_train self = true /\ (0 < mosaic_prob self)%Q /\
  affine L = false /\ flipped L = false.
Proof.
  unfold mosaic_guard. rewrite !andb_true_iff, !negb_true_iff, Qltb_lt.
  tauto.
Qed.

(** C3.  With the mosaic probability 1/2 and every draw of
    [random.random()] equal to 9/10, above that probability, the sample
    of frame 000000 is neither flipped nor jittered and the partner
    000001 is fetched and composed: line 130 tests [0 < mosaic_prob] and
    draws no number against it. *)
Theorem mosaic_attempted_without_a_draw :
  exists L s,
    augment (X := Fixture.stand_ins) (Fixture.steady (9 # 10) 1)
      (Fixture.dataset 3 0 0 (1 # 2)) 0 Fixture.start = (Ok L, s) /\
    flipped L = false /\ affine L = false /\
    length (anns_list L) = 2 /\
    rng_pos s = 7 /\
    opened s =
      [Opened label_dir "000000.txt"; Opened calib_dir "000000.txt";
       Opened image_dir "000000.png"; Opened label_dir "000001.txt";
       Opened calib_dir "000001.txt"; Opened image_dir "000001.png"].
Proof.
  eexists. eexists. split; [vm_compute; reflexivity|].
  repeat split.
Qed.

Section MosaicClaims.
Context {X : Externals} (env : Env) (self : KITTIDataset).

(** C4 (as amended).  When the partner drawn at line 131 loads and its
    image has another size than the primary image, the mosaic step ends
    normally with the sources, regions, matrices and image of the
    primary sample alone; one partner index has been drawn and no
    second one, and the label, calibration and image files of the
    partner have been opened in this call. *)
Theorem mismatched_partner_is_skipped L s manns mP2 mP3 s1 name wh :
  mosaic_guard self L = true ->
  rand_int env (rng_pos s) mod num_samples self < num_samples self ->
  load_annotations env self
    (rand_int env (rng_pos s) mod num_samples self) (next_draw s)
    = (Ok (manns, mP2, mP3), s1) ->
  image_files self !! (rand_int env (rng_pos s) mod num_samples self)
    = Some name ->
  image_size_at env (partner_dir L) name = Some wh ->
  same_size wh (img_size (img L)) = false ->
  exists L' s' f,
    mosaic_step env self L s = (Ok L', s') /\
    anns_list L' = anns_list L /\ region_list L' = region_list L /\
    P_list L' = P_list L /\ P L' = P L /\ img L' = img L /\
    rng_pos s' = S (rng_pos s) /\
    label_files self !! (rand_int env (rng_pos s) mod num_samples self)
      = Some f /\
    opened s' =
      opened s ++ [Opened label_dir f; Opened calib_dir f;
                   Opened (partner_dir L) name].
Proof.
  intros G Hlt Hload Hname Hwh Hsize.
  destruct (load_annotations_Ok env self _ _ _ _ _ _ Hload)
    as (f & Hf & Hpos & Hlog & _).
  assert (Ht : is_train self = true).
  { unfold mosaic_guard in G. destruct (is_train self); [reflexivity|].
    discriminate. }
  rewrite Ht in Hlog.
  eexists. exists (log_open (partner_dir L) name s1), f.
  split.
  - unfold mosaic_step. rewrite G. unfold bind at 1. unfold choice.
    rewrite length_seq. unfold get_item.
    rewrite lookup_seq_lt by assumption. simpl.
    unfold bind at 1. rewrite Hload.
    unfold bind at 1. unfold lift, get_item. rewrite Hname.
    unfold bind at 1. fold (partner_dir L).
    unfold Image_open. rewrite Hwh. simpl. rewrite Hsize.
    reflexivity.
  - simpl. repeat split; auto.
    rewrite Hlog. simpl. rewrite <- app_assoc. reflexivity.
Qed.
End MosaicClaims.

(** ** Failures of the loader (claim C5) *)

Section LoaderClaims.
Context {X : Externals} (env : Env) (self : KITTIDataset).
Local Open Scope result_scope.







End LoaderClaims.

Section AnnotationFailures.
Context {X : Externals} (env : Env) (self : KITTIDataset).
Local Open Scope result_scope.






End AnnotationFailures.

Section CalibrationFailures.
Context {X : Externals} (env : Env) (self : KITTIDataset).
Local Open Scope result_scope.



End CalibrationFailures.

(** * The properties on the small dataset *)

Section Runs.
Import Fixture.
Existing Instance stand_ins.

(** C1: what the specification says fails.  In frame 000000 alone the
    first annotation is rejected and the first accepted object is in
    slot 1, slot 0 staying empty; composed with frame 000001, the
    accepted object of the primary image and that of the partner both
    stand at position 1, and the first is in no slot at the end. *)
Lemma slots_not_in_encounter_order :
  (fst (augment quiet plain 0 start) = Ok plain_L /\
   assemble plain plain_L = Ok (0, buffers_of plain plain_L) /\
   length (anns_list plain_L) = 1 /\
   ~ slots_in_encounter_order plain plain_L (buffers_of plain plain_L)) /\
  (fst (augment (pairing 1) pairs 0 start) = Ok pairs_L /\
   assemble pairs pairs_L = Ok (2, buffers_of pairs pairs_L) /\
   length (anns_list pairs_L) = 2 /\
   ~ slots_in_encounter_order pairs pairs_L (buffers_of pairs pairs_L) /\
   exists e,
     accepted_in_order pairs pairs_L !! 0 = Some e /\
     forall k, slot_at (buffers_of pairs pairs_L) k <> Some e).
Proof.
  split.
  - split; [vm_compute; reflexivity|].
    split; [vm_compute; reflexivity|].
    split; [reflexivity|].
    intros H.
    destruct (accepted_in_order plain plain_L !! 0) as [e|] eqn:E;
      [|vm_compute in E; discriminate E].
    assert (Hlt : 0 < max_objs plain) by (simpl; lia).
    specialize (H 0 e E Hlt).
    vm_compute in E. injection E as <-.
    vm_compute in H. discriminate H.
  - split; [vm_compute; reflexivity|].
    split; [vm_compute; reflexivity|].
    split; [reflexivity|].
    destruct (accepted_in_order pairs pairs_L !! 0) as [e|] eqn:E;
      [|vm_compute in E; discriminate E].
    assert (Hno : forall k, slot_at (buffers_of pairs pairs_L) k <> Some e).
    { vm_compute in E. injection E as <-.
      intros [|[|[|k]]]; vm_compute; discriminate. }
    split.
    + intros H.
      assert (Hlt : 0 < max_objs pairs) by (simpl; lia).
      exact (Hno 0 (H 0 e E Hlt)).
    + exists e. split; [reflexivity | exact Hno].
Qed.

(** C1 on frame 000000: slot 0 stays empty, the annotation at position
    1 is in slot 1. *)
Lemma accepted_object_slot_is_its_position_witness :
  encode_source plain plain_L (output_transform plain plain_L)
    (full_grid plain) (array_at (arrays plain_L) 0) 0
    (nth 0 (anns_list plain_L) []) (new_buffers plain)
    = Ok (buffers_of plain plain_L) /\
  slot_at (buffers_of plain plain_L) 0 = Some empty_slot /\
  (exists a,
     nth 0 (anns_list plain_L) [] !! 1 = Some a /\
     accepted plain plain_L (full_grid plain) (array_at (arrays plain_L) 0) a
       = true /\
     slot_at (buffers_of plain plain_L) 1
       = Some (encoding plain plain_L (array_at (arrays plain_L) 0) a)).
Proof.
  assert (H : encode_source plain plain_L (output_transform plain plain_L)
                (full_grid plain) (array_at (arrays plain_L) 0) 0
                (nth 0 (anns_list plain_L) []) (new_buffers plain)
              = Ok (buffers_of plain plain_L))
    by (vm_compute; reflexivity).
  pose proof (accepted_object_slot_is_its_position plain plain_L
                (full_grid plain) (array_at (arrays plain_L) 0)
                (nth 0 (anns_list plain_L) []) (new_buffers plain)
                (buffers_of plain plain_L) H) as Hk.
  split; [exact H|]. split; [exact (Hk 0)|].
  eexists. split; [reflexivity|]. split; [vm_compute; reflexivity|].
  exact (Hk 1).
Defined.


(** C6 on the flipped frame 000000: the object at position 1 has both
    masks 1. *)
Lemma masks_follow_jitter_and_flip_witness :
  reg_mask (buffers_of mirror mirror_L) !! 1 = Some 1 /\
  flip_mask (buffers_of mirror mirror_L) !! 1 = Some 1.
Proof.
  apply (masks_follow_jitter_and_flip mirror mirror_L 0
           (buffers_of mirror mirror_L) 0 1
           (nth 1 (nth 0 (anns_list mirror_L) []) (Build_Annotation
              EmptyString 0 0 0 0 [] [] 0))
           (full_grid mirror) (array_at (arrays mirror_L) 0)).
  - vm_compute. reflexivity.
  - exists (nth 0 (anns_list mirror_L) []), 0.
    repeat split; vm_compute; reflexivity.
  - vm_compute. reflexivity.
Defined.

(** C6 on the jittered frame 000000: the two accepted objects are stored
    with regression-validity 0 and flip-validity 0. *)
Lemma jittered_objects_are_masked :
  affine (locals_of jittering (dataset 3 0 1 0) 0) = true /\
  length (accepted_in_order (dataset 3 0 1 0)
            (locals_of jittering (dataset 3 0 1 0) 0)) = 2 /\
  reg_mask (buffers_of (dataset 3 0 1 0)
              (locals_of jittering (dataset 3 0 1 0) 0)) = [0; 0; 0] /\
  flip_mask (buffers_of (dataset 3 0 1 0)
               (locals_of jittering (dataset 3 0 1 0) 0)) = [0; 0; 0].
Proof. repeat split; vm_compute; reflexivity. Qed.

(** C9 on the composed sample: its two regions. *)
Lemma stored_iff_keypoint_strictly_inside_witness :
  (length (anns_list pairs_L) = 1 /\
   region_list pairs_L = [full_grid pairs]) \/
  (exists k,
     length (anns_list pairs_L) = 2 /\
     region_list pairs_L =
       [left_part pairs (split_fraction (pairing 1) k);
        right_part pairs (split_fraction (pairing 1) k)]).
Proof.
  apply (stored_iff_keypoint_strictly_inside (pairing 1) pairs 0 start
           pairs_L (snd (augment (pairing 1) pairs 0 start)) 2
           (buffers_of pairs pairs_L)).
  - vm_compute. reflexivity.
  - vm_compute. reflexivity.
Defined.


(** C10 on the composed sample. *)
Lemma target_P_is_matrix_of_last_source_witness :
  exists L anns P2 P3 s1,
    augment (pairing 1) pairs 0 start
      = (Ok L, snd (getitem (pairing 1) pairs 0 start)) /\
    load_annotations (pairing 1) pairs 0 start = (Ok (anns, P2, P3), s1) /\
    ((anns_list L = [anns] /\
      get_field "P" (snd (fst (sample_of (pairing 1) pairs 0))) =
        Some (FMatrix
                (extend_P
                   (if flipped L
                    then mirrored (Qof (fst (img_size (img L))))
                           (view_matrix (use_left L) P2 P3)
                    else view_matrix (use_left L) P2 P3)))) \/
     (exists midx manns mP2 mP3 s2 s3,
        load_annotations (pairing 1) pairs midx s2
          = (Ok (manns, mP2, mP3), s3) /\
        anns_list L = [anns; manns] /\
        get_field "P" (snd (fst (sample_of (pairing 1) pairs 0))) =
          Some (FMatrix (extend_P (view_matrix (use_left L) mP2 mP3))))).
Proof.
  apply (target_P_is_matrix_of_last_source (pairing 1) pairs 0 start
           (fst (fst (sample_of (pairing 1) pairs 0)))
           (snd (fst (sample_of (pairing 1) pairs 0)))
           (snd (sample_of (pairing 1) pairs 0))).
  - reflexivity.
  - reflexivity.
  - vm_compute. reflexivity.
Defined.

(** C10 on the composed sample: entry (0, 2) of the primary matrix is
    0, that of the partner is 2, and the target holds 2. *)
Lemma composed_target_holds_partner_matrix :
  get_field "P" (snd (fst (sample_of (pairing 1) pairs 0))) =
    Some (FMatrix [[1; 0; 2; 0]; [0; 1; 0; 0]; [0; 0; 1; 0];
                   [0; 0; 0; 1]]%Q) /\
  array_at (arrays pairs_L) (P pairs_L) =
    [[1; 0; 0; 0]; [0; 1; 0; 0]; [0; 0; 1; 0]]%Q.
Proof. split; vm_compute; reflexivity. Qed.

(** C4: what the specification says fails.  The partner drawn for
    frame 000000 is frame 000002, of size 16x8 against 20x10: the step
    ends after that one draw, with the primary sample alone. *)
Lemma mismatch_is_not_retried :
  let L := fst (before_mosaic (pairing 2) pairs 0) in
  let s := snd (before_mosaic (pairing 2) pairs 0) in
  (exists L' s',
     mosaic_step (pairing 2) pairs L s = (Ok L', s') /\
     rng_pos s' = S (rng_pos s) /\ length (anns_list L') = 1) /\
  ~ retried_after_mismatch (pairing 2) pairs L s.
Proof.
  split.
  - eexists. eexists. split; [vm_compute; reflexivity|].
    split; reflexivity.
  - intros H.
    specialize (H _ _ "000002.png"%string (16, 8)%Z
                  eq_refl eq_refl eq_refl eq_refl).
    vm_compute in H. lia.
Qed.

(** C4 on frame 000000 with the partner 000002. *)
Lemma mismatched_partner_is_skipped_witness :
  let L := fst (before_mosaic (pairing 2) pairs 0) in
  let s := snd (before_mosaic (pairing 2) pairs 0) in
  exists L' s' f,
    mosaic_step (pairing 2) pairs L s = (Ok L', s') /\
    anns_list L' = anns_list L /\ region_list L' = region_list L /\
    P_list L' = P_list L /\ P L' = P L /\ img L' = img L /\
    rng_pos s' = S (rng_pos s) /\
    label_files pairs !! (rand_int (pairing 2) (rng_pos s)
                          mod num_samples pairs) = Some f /\
    opened s' =
      opened s ++ [Opened label_dir f; Opened calib_dir f;
                   Opened (partner_dir L) "000002.png"].
Proof.
  intros L s.
  eapply (mismatched_partner_is_skipped (pairing 2) pairs L s).
  - reflexivity.
  - vm_compute. lia.
  - vm_compute. reflexivity.
  - reflexivity.
  - reflexivity.
  - reflexivity.
Defined.


End Runs.

(** * Further properties of the loader *)

Section LoaderExtras.
Context {X : Externals} (env : Env) (self : KITTIDataset).
Local Open Scope result_scope.

(** X4: At inference the label file is not needed: with a calibration file
    that binds both matrices the loader returns them with an empty list
    of annotations, opening the calibration file only. *)
Theorem inference_loader_needs_no_labels idx s f rows P2 P3 :
  is_train self = false ->
  label_files self !! idx = Some f ->
  csv_rows env calib_dir f = Some rows ->
  read_calib rows None None = Ok (Some P2, Some P3) ->
  load_annotations env self idx s
    = (Ok ([], P2, P3), log_open calib_dir f s).
Proof.
  intros Ht Hf Hrows Hcalib.
  unfold load_annotations, bind, lift, get_item, ret, open_csv.
  rewrite Hf, Ht, Hrows, Hcalib. reflexivity.
Qed.

(** X5: The loop over the calibration rows ends at the first row labelled
    [P3:]: what follows that row in the file is never read. *)
Theorem rows_after_P3_are_not_read pre fields post :
  forall P2 P3,
    read_calib (pre ++ ("P3:"%string :: fields) :: post) P2 P3
    = read_calib (pre ++ [("P3:"%string :: fields)]) P2 P3.
Proof.
  induction pre as [|row pre IH]; intros P2 P3; simpl.
  - destruct (parse_matrix fields); reflexivity.
  - destruct (get_item row 0) as [head|e]; [simpl|reflexivity].
    destruct (String.eqb head "P2:").
    + destruct (parse_matrix (List.tl row)); [simpl|reflexivity]. apply IH.
    + destruct (String.eqb head "P3:"); [reflexivity | apply IH].
Qed.

Lemma dict_get_label type n :
  dict_get type TYPE_ID_CONVERSION = Ok n -> n < 3.
Proof.
  unfold TYPE_ID_CONVERSION. cbn [dict_get]. intros H.
  destruct (String.eqb "Car" type); [injection H as <-; lia|].
  destruct (String.eqb "Cyclist" type); [injection H as <-; lia|].
  destruct (String.eqb "Pedestrian" type); [injection H as <-; lia|].
  discriminate H.
Qed.

Lemma parse_annotation_class row type a :
  parse_annotation row type = Ok a ->
  a_class a = type /\
  dict_get type TYPE_ID_CONVERSION = Ok (a_label a).
Proof.
  unfold parse_annotation. intros H.
  apply rbind_Ok in H. destruct H as (label & Hlabel & H).
  repeat match goal with
    | H : rbind _ _ = Ok _ |- _ =>
        apply rbind_Ok in H; destruct H as (? & _ & H)
    end.
  injection H as <-. simpl. auto.
Qed.

(** X6: The annotations returned are the rows of the detectable classes, in
    the order of the file, each with the class id of the fixed table
    (Car 0, Cyclist 1, Pedestrian 2), whatever the position of the class
    in the configured list. *)
Theorem annotations_are_the_detectable_rows rows anns :
  read_annotations (classes self) rows = Ok anns ->
  List.map a_class anns
    = List.filter (fun type => existsb (String.eqb type) (classes self))
        (row_types rows) /\
  Forall (fun a =>
            dict_get (a_class a) TYPE_ID_CONVERSION = Ok (a_label a) /\
            a_label a < 3) anns.
Proof.
  revert anns. induction rows as [|row rest IH]; intros anns H; simpl in H.
  - injection H as <-. split; [reflexivity | constructor].
  - destruct row as [|type fields]; [exact (IH anns H)|].
    simpl. destruct (existsb (String.eqb type) (classes self)).
    + apply rbind_Ok in H. destruct H as (a & Ha & H).
      apply rbind_Ok in H. destruct H as (anns' & Hrest & H).
      injection H as <-. destruct (IH anns' Hrest) as [Hmap Hall].
      apply parse_annotation_class in Ha. destruct Ha as [Hc Hl].
      split.
      * simpl. rewrite Hc, Hmap. reflexivity.
      * constructor; [|assumption]. rewrite Hc. split; [assumption|].
        eapply dict_get_label; eassumption.
    + exact (IH anns H).
Qed.
End LoaderExtras.

(** * Further properties of [__init__] *)

Lemma replace_from_avoids (c : ascii) (old' new tail : string) :
  forall s,
    avoids c s ->
    replace_from (String c old') new 0 (String.append s tail)
    = String.append s (replace_from (String c old') new 0 tail).
Proof.
  induction s as [|a rest IH]; intros Hs; [reflexivity|].
  destruct Hs as [Hne Hrest].
  cbn [String.append replace_from String.prefix].
  destruct (ascii_dec c a) as [E|_]; [congruence|].
  rewrite (IH Hrest). reflexivity.
Qed.

Lemma append_empty (s : string) : String.append s EmptyString = s.
Proof. induction s as [|a rest IH]; simpl; congruence. Qed.

Section InitExtras.
Context (env : Env).

Lemma init_Ok cfg train hook s ds s' :
  init env cfg train hook s = (Ok ds, s') ->
  exists lines,
    In (split_of cfg train) known_splits /\
    text_lines env imagesets_dir (String.append (split_of cfg train) ".txt")
      = Some lines /\
    DOWN_RATIO cfg <> 0%Z /\
    s' = log_open imagesets_dir
           (String.append (split_of cfg train) ".txt") s /\
    ds = {| is_train := train;
            transforms := hook;
            image_files :=
              List.map
                (fun line =>
                   String.append (replace newline EmptyString line) ".png")
                lines;
            label_files :=
              List.map (replace ".png" ".txt")
                (List.map
                   (fun line =>
                      String.append (replace newline EmptyString line) ".png")
                   lines);
            num_samples := length lines;
            classes := DETECT_CLASSES cfg;
            flip_prob := if train then FLIP_PROB_TRAIN cfg else 0%Q;
            aug_prob := if train then SHIFT_SCALE_PROB_TRAIN cfg else 0%Q;
            gaussian_prob :=
              if train then GAUSSIAN_NOISE_PROB_TRAIN cfg else 0%Q;
            color_prob :=
              if train then COLOR_CHANGE_PROB_TRAIN cfg else 0%Q;
            shift_scale := SHIFT_SCALE_TRAIN cfg;
            right_prob := if train then USE_RIGHT_PROB_TRAIN cfg else 0%Q;
            mosaic_prob := if train then MOSAIC_PROB_TRAIN cfg else 0%Q;
            num_classes := length (DETECT_CLASSES cfg);
            input_width := WIDTH_TRAIN cfg;
            input_height := HEIGHT_TRAIN cfg;
            output_width := (WIDTH_TRAIN cfg / DOWN_RATIO cfg)%Z;
            output_height := (HEIGHT_TRAIN cfg / DOWN_RATIO cfg)%Z;
            max_objs := MAX_OBJECTS cfg |}.
Proof.
  unfold init. fold (split_of cfg train). intros H.
  apply bind_Ok in H. destruct H as (txt & s0 & Htxt & H).
  apply bind_Ok in H. destruct H as (lines & s1 & Hlines & H).
  apply bind_Ok in H. destruct H as (ow & s2 & How & H).
  apply bind_Ok in H. destruct H as (oh & s3 & Hoh & H).
  apply ret_Ok in H. destruct H as [-> ->].
  apply lift_Ok in How. destruct How as [How ->].
  apply lift_Ok in Hoh. destruct Hoh as [Hoh ->].
  unfold floordiv in How, Hoh.
  destruct (DOWN_RATIO cfg =? 0)%Z eqn:Ed; [discriminate|].
  apply Z.eqb_neq in Ed. injection How as <-. injection Hoh as <-.
  unfold open_lines in Hlines.
  destruct (text_lines env imagesets_dir txt) as [ls|] eqn:El;
    [|discriminate].
  injection Hlines as <- <-.
  assert (Hsplit : In (split_of cfg train) known_splits /\
                   txt = String.append (split_of cfg train) ".txt" /\
                   s0 = s).
  { unfold known_splits.
    destruct (String.eqb (split_of cfg train) "train") eqn:E1.
    { apply String.eqb_eq in E1. rewrite E1 in *.
      apply ret_Ok in Htxt. destruct Htxt as [-> ->]. simpl. auto. }
    destruct (String.eqb (split_of cfg train) "val") eqn:E2.
    { apply String.eqb_eq in E2. rewrite E2 in *.
      apply ret_Ok in Htxt. destruct Htxt as [-> ->]. simpl. auto. }
    destruct (String.eqb (split_of cfg train) "trainval") eqn:E3.
    { apply String.eqb_eq in E3. rewrite E3 in *.
      apply ret_Ok in Htxt. destruct Htxt as [-> ->]. simpl. auto. }
    destruct (String.eqb (split_of cfg train) "test") eqn:E4.
    { apply String.eqb_eq in E4. rewrite E4 in *.
      apply ret_Ok in Htxt. destruct Htxt as [-> ->]. simpl. tauto. }
    discriminate Htxt. }
  destruct Hsplit as (Hin & -> & ->).
  exists ls. split; [assumption|]. split; [assumption|].
  split; [assumption|]. split; [reflexivity|].
  rewrite length_map. reflexivity.
Qed.

(** X1: A dataset object that [__init__] builds has one image file and one
    label file per line of the image-set file of its split, [__len__]
    counts those lines, so that [label_files[idx]] and [image_files[idx]]
    exist exactly for [idx < len]; outside training every augmentation
    probability is 0. *)
Theorem init_lists_one_entry_per_line cfg train hook s ds s' :
  init env cfg train hook s = (Ok ds, s') ->
  exists lines,
    In (split_of cfg train) known_splits /\
    text_lines env imagesets_dir (String.append (split_of cfg train) ".txt")
      = Some lines /\
    len ds = length lines /\
    length (image_files ds) = len ds /\
    length (label_files ds) = len ds /\
    (forall idx,
       idx < len ds <->
       (exists f, label_files ds !! idx = Some f) /\
       (exists g, image_files ds !! idx = Some g)) /\
    is_train ds = train /\
    (train = false ->
     flip_prob ds = 0%Q /\ aug_prob ds = 0%Q /\ gaussian_prob ds = 0%Q /\
     color_prob ds = 0%Q /\ right_prob ds = 0%Q /\ mosaic_prob ds = 0%Q).
Proof.
  intros H. apply init_Ok in H.
  destruct H as (lines & Hin & Hlines & _ & _ & ->).
  exists lines. unfold len. simpl.
  rewrite !length_map.
  split; [assumption|]. split; [assumption|].
  split; [reflexivity|]. split; [reflexivity|]. split; [reflexivity|].
  split; [|split; [reflexivity|intros ->; repeat split]].
  intros idx. split.
  - intros Hlt. split; apply lookup_lt_is_Some; rewrite !length_map;
      assumption.
  - intros [[f Hf] _]. apply lookup_lt_Some in Hf.
    rewrite !length_map in Hf. assumption.
Qed.

(** X2: For a line of the image-set file that is a name without dots
    followed by its newline, the image file is the name with [.png], the
    label file the name with [.txt], and the sample id that [__getitem__]
    derives from the label file is the name again. *)
Theorem init_names_of_plain_lines cfg train hook s ds s' lines idx base :
  init env cfg train hook s = (Ok ds, s') ->
  text_lines env imagesets_dir (String.append (split_of cfg train) ".txt")
    = Some lines ->
  lines !! idx = Some (String.append base newline) ->
  avoids "."%char base ->
  avoids (ascii_of_nat 10) base ->
  image_files ds !! idx = Some (String.append base ".png") /\
  label_files ds !! idx = Some (String.append base ".txt") /\
  replace ".txt" EmptyString (String.append base ".txt") = base.
Proof.
  intros H Hlines Hidx Hdot Hnl. apply init_Ok in H.
  destruct H as (lines' & _ & Hlines' & _ & _ & ->).
  rewrite Hlines in Hlines'. injection Hlines' as <-. simpl.
  assert (Hbase : replace newline EmptyString (String.append base newline)
                  = base).
  { unfold replace, newline.
    rewrite (replace_from_avoids (ascii_of_nat 10) EmptyString EmptyString
               (String (ascii_of_nat 10) EmptyString) base Hnl).
    simpl. apply append_empty. }
  assert (Htxt : replace ".png" ".txt" (String.append base ".png")
                 = String.append base ".txt").
  { unfold replace.
    rewrite (replace_from_avoids "."%char "png" ".txt" ".png" base Hdot).
    reflexivity. }
  split; [|split].
  - rewrite list_lookup_fmap, Hidx. simpl. rewrite Hbase. reflexivity.
  - rewrite !list_lookup_fmap, Hidx. simpl. rewrite Hbase, Htxt.
    reflexivity.
  - unfold replace.
    rewrite (replace_from_avoids "."%char "txt" EmptyString ".txt" base Hdot).
    simpl. apply append_empty.
Qed.

(** X3: A split name other than train, val, trainval and test makes
    [__init__] raise [ValueError] before any file is opened. *)
Theorem init_rejects_unknown_split cfg train hook s :
  ~ In (split_of cfg train) known_splits ->
  init env cfg train hook s = (Raise ValueError, s).
Proof.
  intros Hnot. unfold init. fold (split_of cfg train).
  unfold known_splits in Hnot. simpl in Hnot.
  destruct (String.eqb (split_of cfg train) "train") eqn:E1;
    [apply String.eqb_eq in E1; symmetry in E1; tauto|].
  destruct (String.eqb (split_of cfg train) "val") eqn:E2;
    [apply String.eqb_eq in E2; symmetry in E2; tauto|].
  destruct (String.eqb (split_of cfg train) "trainval") eqn:E3;
    [apply String.eqb_eq in E3; symmetry in E3; tauto|].
  destruct (String.eqb (split_of cfg train) "test") eqn:E4;
    [apply String.eqb_eq in E4; symmetry in E4; tauto|].
  reflexivity.
Qed.
End InitExtras.

(** * Further properties of [__getitem__] *)

Lemma locals_eta (L : Locals) :
  {| original_idx := original_idx L; use_left := use_left L;
     flipped := flipped L; affine := affine L; center := center L;
     size := size L; img := img L; arrays := arrays L; P := P L;
     P_list := P_list L; anns_list := anns_list L;
     region_list := region_list L |} = L.
Proof. destruct L. reflexivity. Qed.

Lemma extend_P_3x4 (m : Mat) :
  is_3x4 m -> extend_P m = m ++ [[0; 0; 0; 1]]%Q.
Proof.
  intros (a & b & c & d & e & f & g & h & i & j & k & l & ->). reflexivity.
Qed.

Section InferenceExtras.
Context {X : Externals} (env : Env) (self : KITTIDataset).

Lemma train_draw_inference prob s :
  is_train self = false -> train_draw env self prob s = (Ok false, s).
Proof. intros Ht. unfold train_draw. rewrite Ht. reflexivity. Qed.

(** Outside training the augmentation is the view selection alone. *)
Lemma augment_inference idx s :
  is_train self = false ->
  augment env self idx s = select_view env self idx s.
Proof.
  intros Ht. unfold augment, bind.
  destruct (select_view env self idx s) as [[L|e] s1]; [|reflexivity].
  unfold flip_step, bind. rewrite (train_draw_inference _ _ Ht). simpl.
  unfold jitter_step, bind. rewrite (train_draw_inference _ _ Ht). simpl.
  unfold mosaic_step, mosaic_guard. rewrite Ht. simpl.
  unfold photometric_step, bind. rewrite !(train_draw_inference _ _ Ht).
  simpl. unfold ret. rewrite locals_eta. reflexivity.
Qed.

(** X7: An index beyond the list of label files raises [IndexError] before
    any file is opened or any random number drawn. *)
Theorem index_out_of_range idx s :
  label_files self !! idx = None ->
  getitem env self idx s = (Raise IndexError, s).
Proof.
  intros H. unfold getitem, augment, select_view, bind, lift, get_item.
  rewrite H. reflexivity.
Qed.

(** X8: A sample produced outside training draws no random number and opens
    the calibration file and the left image only; the image is the
    unflipped left image resampled to the network input size; the target
    keeps the size of the original image and holds two fields, the
    output-grid transform of the whole image and the left matrix [P2]
    with the row [0, 0, 0, 1] appended; the sample id is the label file
    name without [.txt]. *)
Theorem inference_sample idx s im t name s' :
  is_train self = false -> transforms self = None ->
  getitem env self idx s = (Ok (im, t, name), s') ->
  exists f g anns P2 P3 w h,
    label_files self !! idx = Some f /\
    image_files self !! idx = Some g /\
    load_annotations env self idx s
      = (Ok (anns, P2, P3), log_open calib_dir f s) /\
    image_size_at env image_dir g = Some (w, h) /\
    rng_pos s' = rng_pos s /\
    opened s' = opened s ++ [Opened calib_dir f; Opened image_dir g] /\
    name = replace ".txt" EmptyString f /\
    im = {| img_dir := image_dir; img_name := g;
            img_size := (input_width self, input_height self);
            img_ops :=
              [AffineResample
                 (get_transfrom_matrix
                    (((Qof w / 2)%Q, (Qof h / 2)%Q), (Qof w, Qof h))
                    (input_width self, input_height self))] |} /\
    image_size t = (Qof w, Qof h) /\
    pl_is_train t = false /\
    extra_fields t =
      [("trans_mat"%string,
        FMatrix (get_transfrom_matrix
                   (((Qof w / 2)%Q, (Qof h / 2)%Q), (Qof w, Qof h))
                   (output_width self, output_height self)));
       ("P"%string, FMatrix (P2 ++ [[0; 0; 0; 1]]%Q))].
Proof.
  intros Ht Hhook H. unfold getitem in H.
  apply bind_Ok in H. destruct H as (L & s1 & Haug & H).
  apply lift_Ok in H. destruct H as [Hfin ->].
  rewrite (augment_inference idx s Ht) in Haug.
  unfold select_view in Haug.
  apply bind_Ok in Haug. destruct Haug as (f & s0 & Hf & Haug).
  apply lift_Ok in Hf. destruct Hf as [Hf ->]. apply get_item_Ok in Hf.
  apply bind_Ok in Haug. destruct Haug as ([[anns P2] P3] & s2 & Hload & Haug).
  apply bind_Ok in Haug. destruct Haug as (right & s2' & Hright & Haug).
  rewrite (train_draw_inference _ _ Ht) in Hright.
  injection Hright as <- <-.
  apply bind_Ok in Haug. destruct Haug as (g & s3 & Hg & Haug).
  apply lift_Ok in Hg. destruct Hg as [Hg ->]. apply get_item_Ok in Hg.
  apply bind_Ok in Haug. destruct Haug as (im0 & s4 & Hopen & Haug).
  unfold Image_open in Hopen.
  destruct (image_size_at env image_dir g) as [[w h]|] eqn:Hsize;
    [|discriminate].
  injection Hopen as <- <-. simpl in Haug.
  apply ret_Ok in Haug. destruct Haug as [-> ->].
  destruct (load_annotations_Ok env self idx s anns P2 P3 s2 Hload)
    as (f' & Hf' & Hpos & Hlog & H2 & _).
  rewrite Hf in Hf'. injection Hf' as <-. rewrite Ht in Hlog.
  assert (Hs2 : s2 = log_open calib_dir f s).
  { destruct s2 as [p o]. destruct s as [p0 o0]. simpl in *.
    unfold log_open. simpl. congruence. }
  unfold finish in Hfin. rewrite Ht in Hfin. simpl in Hfin.
  unfold run_transforms in Hfin. rewrite Hhook in Hfin.
  injection Hfin as <- <- <-.
  exists f, g, anns, P2, P3, w, h.
  split; [assumption|]. split; [assumption|].
  split; [rewrite Hload, Hs2; reflexivity|].
  split; [assumption|].
  split; [simpl; assumption|].
  split; [simpl; rewrite Hlog, <- app_assoc; reflexivity|].
  split; [reflexivity|].
  split; [reflexivity|].
  split; [reflexivity|].
  split; [reflexivity|].
  unfold array_at. simpl. rewrite (extend_P_3x4 P2 H2). reflexivity.
Qed.
End InferenceExtras.

Lemma mat_set_3x4 (m : Mat) (v : Q) : is_3x4 m -> is_3x4 (mat_set m 0 2 v).
Proof.
  intros (a & b & c & d & e & f & g & h & i & j & k & l & ->).
  exists a, b, v, d, e, f, g, h, i, j, k, l. reflexivity.
Qed.

Section AugmentExtras.
Context {X : Externals} (env : Env) (self : KITTIDataset).

(** X9: The three per-source lists read at lines 208-210 always have the
    same length, 1 or 2, and every matrix they hand to [encode_label] has
    three rows of four values; a flipped sample uses the left view, and a
    sample of two sources is a training sample neither flipped nor
    jittered. *)
Theorem sources_are_consistent idx s L s' :
  augment env self idx s = (Ok L, s') ->
  (length (anns_list L) = 1 \/ length (anns_list L) = 2) /\
  length (region_list L) = length (anns_list L) /\
  length (P_list L) = length (anns_list L) /\
  (forall ref, In ref (P_list L) -> is_3x4 (array_at (arrays L) ref)) /\
  (flipped L = true -> use_left L = true) /\
  (length (anns_list L) = 2 ->
   is_train self = true /\ flipped L = false /\ affine L = false).
Proof.
  intros H. apply augment_Ok in H.
  destruct H as (anns & P2 & P3 & s1 & Hload & Hflip & Hcases).
  apply load_annotations_Ok in Hload.
  destruct Hload as (f & _ & _ & _ & H2 & H3).
  assert (Hview : forall left, is_3x4 (view_matrix left P2 P3)).
  { intros [|]; assumption. }
  destruct Hcases as [(Ha & Hr & HPl & Hmat) |
                      (Ht & _ & Hf & Haff & midx & manns & mP2 & mP3 & s2 &
                       s3 & k & ref & Hload2 & Ha & Hr & HPl & Hmat & Hmat2)].
  - rewrite Ha, Hr, HPl. simpl.
    split; [auto|]. split; [reflexivity|]. split; [reflexivity|].
    split; [|split; [assumption | discriminate]].
    intros ref [<- | []]. rewrite Hmat.
    destruct (flipped L); [apply mat_set_3x4|]; apply Hview.
  - apply load_annotations_Ok in Hload2.
    destruct Hload2 as (f2 & _ & _ & _ & Hm2 & Hm3).
    rewrite Ha, Hr, HPl. simpl.
    split; [auto|]. split; [reflexivity|]. split; [reflexivity|].
    split; [|split; [assumption | auto]].
    intros r [<- | [<- | []]].
    + rewrite Hmat. apply Hview.
    + rewrite Hmat2. destruct (use_left L); assumption.
Qed.

Lemma train_draw_pos prob s hit s' :
  train_draw env self prob s = (Ok hit, s') ->
  rng_pos s' = rng_pos s + (if is_train self then 1 else 0).
Proof.
  intros H. apply train_draw_Ok in H.
  destruct H as [(-> & _ & ->) | (-> & _ & ->)]; simpl; lia.
Qed.

Lemma select_view_pos idx s L s' :
  select_view env self idx s = (Ok L, s') ->
  rng_pos s' = rng_pos s + (if is_train self then 1 else 0).
Proof.
  unfold select_view. intros H.
  apply bind_Ok in H. destruct H as (name & s0 & Hname & H).
  apply lift_Ok in Hname. destruct Hname as [_ ->].
  apply bind_Ok in H. destruct H as ([[anns P2] P3] & s1 & Hload & H).
  apply bind_Ok in H. destruct H as (right & s2 & Hright & H).
  apply bind_Ok in H. destruct H as (iname & s3 & Hin & H).
  apply lift_Ok in Hin. destruct Hin as [_ ->].
  apply bind_Ok in H. destruct H as (im & s4 & Him & H).
  destruct (img_size im) as [w h].
  apply ret_Ok in H. destruct H as [_ ->].
  apply Image_open_Ok in Him. destruct Him as (_ & _ & ->).
  apply train_draw_pos in Hright.
  apply load_annotations_Ok in Hload. destruct Hload as (f & _ & Hpos & _).
  simpl. lia.
Qed.

Lemma flip_step_pos L s L' s' :
  flip_step env self L s = (Ok L', s') ->
  rng_pos s' = rng_pos s + (if is_train self then 1 else 0).
Proof.
  unfold flip_step. intros H.
  apply bind_Ok in H. destruct H as (hit & s1 & Hhit & H).
  apply train_draw_pos in Hhit.
  destruct (hit && use_left L); apply ret_Ok in H; destruct H as [_ ->];
    assumption.
Qed.

Lemma jitter_step_pos L s L' s' :
  affine L = false ->
  jitter_step env self L s = (Ok L', s') ->
  rng_pos s' = rng_pos s + (if is_train self then 1 else 0)
               + (if affine L' then 3 else 0).
Proof.
  unfold jitter_step. intros Ha H.
  apply bind_Ok in H. destruct H as (hit & s1 & Hhit & H).
  apply train_draw_pos in Hhit.
  destruct hit.
  - destruct (shift_scale self) as [shift scale].
    apply bind_Ok in H. destruct H as (dx & s2 & Hdx & H).
    apply bind_Ok in H. destruct H as (dy & s3 & Hdy & H).
    apply bind_Ok in H. destruct H as (k & s4 & Hk & H).
    apply ret_Ok in H. destruct H as [-> ->].
    unfold choice in Hdx, Hdy, Hk.
    injection Hdx as _ <-. injection Hdy as _ <-. injection Hk as _ <-.
    simpl. lia.
  - apply ret_Ok in H. destruct H as [-> ->]. rewrite Ha. lia.
Qed.

Lemma photometric_step_pos L s L' s' :
  photometric_step env self L s = (Ok L', s') ->
  rng_pos s' = rng_pos s + (if is_train self then 2 else 0).
Proof.
  unfold photometric_step. intros H.
  apply bind_Ok in H. destruct H as (noise & s1 & Hn & H).
  apply bind_Ok in H. destruct H as (colour & s2 & Hc & H).
  apply ret_Ok in H. destruct H as [_ ->].
  apply train_draw_pos in Hn. apply train_draw_pos in Hc.
  destruct (is_train self); lia.
Qed.

(** X10: The number of calls to the [random] module that [__getitem__] itself
    makes for one sample (what the noise and colour routines of
    [data_augmentation] draw is theirs): none outside training; in
    training five tests against a probability (right view, flip, jitter,
    noise, colour; the flip draw is made for the right view too), three
    choices more when the jitter is applied, and, when the mosaic step is
    entered, one choice of a partner and one more draw for the split when
    the partner is composed. *)
Theorem number_of_random_draws idx s L s' :
  augment env self idx s = (Ok L, s') ->
  rng_pos s' =
    rng_pos s + (if is_train self then 5 else 0)
    + (if affine L then 3 else 0)
    + (if mosaic_guard self L
       then (if length (anns_list L) =? 2 then 2 else 1)
       else 0).
Proof.
  intros H. apply augment_steps in H.
  destruct H as (L0 & s0 & L1 & s1 & L2 & s2 & L3 & s3 &
                 H0 & H1 & H2 & H3 & H4).
  pose proof (select_view_pos _ _ _ _ H0) as P0.
  pose proof (flip_step_pos _ _ _ _ H1) as P1.
  apply select_view_Ok in H0.
  destruct H0 as (anns & P2 & P3 & t1 & _ & F0 & A0 & _ & _ & _ & Hanns & _).
  assert (A1 : affine L1 = false /\ anns_list L1 = [anns]).
  { apply flip_step_Ok in H1.
    destruct H1 as [-> | (_ & _ & _ & _ & Ha & _ & _ & _ & _ & _ & Hl & _)].
    - auto.
    - rewrite Ha, Hl. auto. }
  destruct A1 as [A1 Hanns1].
  pose proof (jitter_step_pos _ _ _ _ A1 H2) as P2'.
  assert (Hanns2 : anns_list L2 = [anns]).
  { apply jitter_step_Ok in H2.
    destruct H2 as [-> | (_ & _ & _ & _ & _ & _ & _ & Hl & _)];
      [assumption | rewrite Hl; assumption]. }
  pose proof (photometric_step_pos _ _ _ _ H4) as P4.
  apply photometric_step_Ok in H4.
  destruct H4 as (Ef & Ea & _ & _ & _ & _ & _ & _ & Eanns & _).
  assert (Hg : mosaic_guard self L = mosaic_guard self L3).
  { unfold mosaic_guard. rewrite Ef, Ea. reflexivity. }
  rewrite Hg, Ea, Eanns.
  apply mosaic_step_Ok in H3.
  destruct H3 as [(G & -> & ->) |
                  (G & manns & mP2 & mP3 & t2 & name & wh & _ & Hload2 & _ &
                   _ & Mf & Ma & _ & _ & _ & _ & _ & _ & Hcases)].
  - rewrite G. destruct (is_train self), (affine L2); lia.
  - assert (G3 : mosaic_guard self L3 = true).
    { unfold mosaic_guard in *. rewrite Mf, Ma. assumption. }
    rewrite G3, Ma.
    apply load_annotations_Ok in Hload2.
    destruct Hload2 as (f & _ & Hpos & _). simpl in Hpos.
    destruct (mosaic_only_without_flip_and_jitter self L2 G)
      as (Ht & _ & Ha2 & _).
    rewrite Ht, Ha2 in *.
    destruct Hcases as [(_ & -> & _ & _ & Hl & _) | (_ & -> & _ & Hl & _)];
      rewrite Hl, Hanns2; simpl in *; lia.
Qed.
End AugmentExtras.

(** * Regions of a composed sample and ranges of the jitter *)

Section RegionExtras.
Context (env : Env) (self : KITTIDataset).

(** X11: The two parts of the grid of a composed sample share no keypoint,
    and a keypoint on the split column itself is inside neither: both
    tests are strict. *)
Theorem mosaic_parts_share_no_keypoint (r : Q) (p : Vec2) :
  (in_region (left_part self r) p = true ->
   in_region (right_part self r) p = false) /\
  ((fst p == r * Qof (output_width self))%Q ->
   in_region (left_part self r) p = false /\
   in_region (right_part self r) p = false).
Proof.
  unfold left_part, right_part, in_region. split.
  - rewrite !andb_true_iff, !Qltb_lt. intros [[_ Hlt] _].
    destruct (Qltb (r * Qof (output_width self)) (fst p)) eqn:E;
      [|reflexivity].
    apply Qltb_lt in E. exfalso.
    exact (Qlt_irrefl _ (Qlt_trans _ _ _ Hlt E)).
  - intros Heq. split.
    + destruct (Qltb (fst p) (r * Qof (output_width self))) eqn:E.
      * apply Qltb_lt in E. rewrite Heq in E.
        exfalso. exact (Qlt_irrefl _ E).
      * rewrite andb_false_r. reflexivity.
    + destruct (Qltb (r * Qof (output_width self)) (fst p)) eqn:E.
      * apply Qltb_lt in E. rewrite Heq in E.
        exfalso. exact (Qlt_irrefl _ E).
      * reflexivity.
Qed.

End RegionExtras.



Section JitterExtras.
Context {X : Externals} (env : Env) (self : KITTIDataset).


End JitterExtras.

(** * When the target assembly succeeds, and the shape of what it gives *)

Section AssemblyExtras.
Context {X : Externals} (env : Env) (self : KITTIDataset).

Lemma encoding_cls L Pm a : e_cls (encoding self L Pm a) = a_label a.
Proof.
  unfold encoding, project.
  destruct (encode_label Pm _ (a_dimensions a) _) as [[pt box2d] box3d].
  reflexivity.
Qed.

Lemma store_heat i e radius b b' :
  store i e radius b = Ok b' ->
  e_cls e < length (heat_map b) /\
  length (heat_map b') = length (heat_map b).
Proof.
  unfold store. intros H.
  apply rbind_Ok in H. destruct H as (channel & Hc & H).
  apply get_item_Ok in Hc. apply lookup_lt_Some in Hc.
  apply rbind_Ok in H. destruct H as (hm & Hhm & H).
  apply set_item_Ok in Hhm. destruct Hhm as [_ ->].
  repeat match goal with
    | H : rbind _ _ = Ok _ |- _ =>
        apply rbind_Ok in H; destruct H as (? & _ & H)
    end.
  injection H as <-. simpl. rewrite length_insert. auto.
Qed.

Lemma store_succeeds n i e radius b :
  slots n b -> i < n -> e_cls e < length (heat_map b) ->
  exists b', store i e radius b = Ok b'.
Proof.
  intros Hb Hi Hc. destruct Hb. unfold store, get_item, set_item.
  destruct (lookup_lt_is_Some_2 _ _ Hc) as [channel ->]. simpl.
  apply Nat.ltb_lt in Hc. rewrite Hc. simpl.
  assert (Hlt : forall m, m = n -> (i <? m) = true)
    by (intros m ->; apply Nat.ltb_lt; assumption).
  rewrite !Hlt by assumption. simpl. eauto.
Qed.

Lemma encode_source_heat L region Pm anns :
  forall i b b',
    encode_source self L (output_transform self L) region Pm i anns b
      = Ok b' ->
    length (heat_map b') = length (heat_map b) /\
    forall k a,
      anns !! k = Some a -> accepted self L region Pm a = true ->
      a_label a < length (heat_map b).
Proof.
  induction anns as [|a rest IH]; intros i b b' H; simpl in H.
  - injection H as <-. split; [reflexivity|]. intros k a Hk. discriminate.
  - apply rbind_Ok in H. destruct H as (b1 & H1 & H).
    apply IH in H. destruct H as [Hlen Hrest].
    assert (Hobj : length (heat_map b1) = length (heat_map b) /\
                   (accepted self L region Pm a = true ->
                    a_label a < length (heat_map b))).
    { unfold encode_object in H1. unfold accepted, keypoint.
      pose proof (encoding_cls L Pm a) as Hcls. unfold encoding in Hcls.
      destruct (project self (flipped L) (affine L) (output_transform self L)
                  Pm a) as [[pt e] r].
      simpl in *. destruct (in_region region pt).
      - apply store_heat in H1. rewrite <- Hcls. tauto.
      - injection H1 as <-. split; [reflexivity | discriminate]. }
    destruct Hobj as [Hlen1 Hacc]. split; [congruence|].
    intros [|k] a' Hk Ha'; simpl in Hk.
    + injection Hk as <-. auto.
    + rewrite <- Hlen1. eapply Hrest; eassumption.
Qed.

Lemma encode_source_succeeds L n region Pm anns :
  forall i b,
    slots n b ->
    fits self L n (length (heat_map b)) region Pm i anns ->
    exists b',
      encode_source self L (output_transform self L) region Pm i anns b
        = Ok b'.
Proof.
  induction anns as [|a rest IH]; intros i b Hb Hfit; simpl; [eauto|].
  assert (H1 : exists b1,
             encode_object self L (output_transform self L) region Pm i a b
               = Ok b1).
  { unfold encode_object.
    pose proof (Hfit 0 a eq_refl) as Ha. unfold accepted, keypoint in Ha.
    pose proof (encoding_cls L Pm a) as Hcls. unfold encoding in Hcls.
    destruct (project self (flipped L) (affine L) (output_transform self L)
                Pm a) as [[pt e] r].
    simpl in *. destruct (in_region region pt); [|eauto].
    destruct (Ha eq_refl) as [Hi Hc].
    eapply store_succeeds; [eassumption | lia | rewrite Hcls; assumption]. }
  destruct H1 as (b1 & H1). rewrite H1. simpl.
  pose proof (encode_object_Ok self L region Pm i a b b1 H1) as (_ & _ & Hn).
  destruct (Hn n Hb) as [Hb1 _].
  assert (Hlen : length (heat_map b1) = length (heat_map b)).
  { pose proof (encode_source_heat L region Pm [a] i b b1) as Hh.
    simpl in Hh. rewrite H1 in Hh. simpl in Hh.
    destruct (Hh eq_refl) as [Hl _]. assumption. }
  apply IH; [assumption|].
  intros k a' Hk Ha'. rewrite Hlen.
  destruct (Hfit (S k) a' Hk Ha') as [Hi Hc]. split; [lia | assumption].
Qed.
Lemma encode_sources_heat L srcs :
  forall Pref b Pref' b',
    encode_sources self L (output_transform self L) srcs Pref b
      = Ok (Pref', b') ->
    length (heat_map b') = length (heat_map b) /\
    forall i k a region Pm,
      In i srcs -> object_of L i k a region Pm ->
      accepted self L region Pm a = true ->
      a_label a < length (heat_map b).
Proof.
  induction srcs as [|i rest IH]; intros Pref b Pref' b' H; simpl in H.
  - injection H as <- <-. split; [reflexivity|]. intros i k a r Pm [].
  - apply rbind_Ok in H. destruct H as (anns & Hanns & H).
    apply rbind_Ok in H. destruct H as (region & Hregion & H).
    apply rbind_Ok in H. destruct H as (ref & Href & H).
    apply rbind_Ok in H. destruct H as (b1 & Hsrc & H).
    apply get_item_Ok in Hanns, Hregion, Href.
    apply encode_source_heat in Hsrc. destruct Hsrc as [Hlen1 Hacc].
    apply IH in H. destruct H as [Hlen Hrest].
    split; [congruence|].
    intros j k a r Pm [<- | Hin] Hobj Ha.
    + destruct Hobj as (anns' & ref' & E1 & E2 & E3 & E4 & ->).
      rewrite Hanns in E1. rewrite Hregion in E3. rewrite Href in E4.
      injection E1 as <-. injection E3 as <-. injection E4 as <-.
      eapply Hacc; eassumption.
    + rewrite <- Hlen1. eapply Hrest; eassumption.
Qed.

Lemma encode_sources_succeeds L n srcs :
  forall Pref b,
    slots n b ->
    (forall i, In i srcs ->
       i < length (anns_list L) /\ i < length (region_list L) /\
       i < length (P_list L)) ->
    (forall i k a region Pm,
       In i srcs -> object_of L i k a region Pm ->
       accepted self L region Pm a = true ->
       k < n /\ a_label a < length (heat_map b)) ->
    exists r,
      encode_sources self L (output_transform self L) srcs Pref b = Ok r.
Proof.
  induction srcs as [|i rest IH]; intros Pref b Hb Hlen Hfit; simpl;
    [eauto|].
  destruct (Hlen i (or_introl eq_refl)) as (Ha & Hr & Hp).
  destruct (lookup_lt_is_Some_2 _ _ Ha) as [anns Eanns].
  destruct (lookup_lt_is_Some_2 _ _ Hr) as [region Eregion].
  destruct (lookup_lt_is_Some_2 _ _ Hp) as [ref Eref].
  unfold get_item. rewrite Eanns, Eregion, Eref. simpl.
  destruct (encode_source_succeeds L n region (array_at (arrays L) ref)
              anns 0 b Hb) as (b1 & Hsrc).
  { intros k a Hk Hacc. simpl.
    apply (Hfit i k a region (array_at (arrays L) ref));
      [left; reflexivity | | assumption].
    exists anns, ref. auto. }
  rewrite Hsrc. simpl.
  destruct (encode_source_Ok self L region (array_at (arrays L) ref) anns
              0 b b1 Hsrc) as [_ Hn].
  destruct (Hn n Hb) as [Hb1 _].
  destruct (encode_source_heat L region (array_at (arrays L) ref) anns
              0 b b1 Hsrc) as [Hheat _].
  apply IH; [assumption | |].
  - intros j Hj. apply Hlen. right. assumption.
  - intros j k a r Pm Hj Hobj Hacc. rewrite Hheat.
    apply (Hfit j k a r Pm); [right|..]; assumption.
Qed.

(** X14: The target assembly of a sample whose three per-source lists have
    one length ends normally exactly when every accepted object stands at
    a position below [max_objs] in its annotation list and has a class id
    below the number of configured classes; otherwise it raises
    [IndexError]. *)
Theorem assembly_succeeds_iff L :
  length (region_list L) = length (anns_list L) ->
  length (P_list L) = length (anns_list L) ->
  ((exists Pref b, assemble self L = Ok (Pref, b)) <->
   (forall i k a region Pm,
      object_of L i k a region Pm ->
      accepted self L region Pm a = true ->
      k < max_objs self /\ a_label a < num_classes self)) /\
  ((forall r, assemble self L <> Ok r) ->
   assemble self L = Raise IndexError).
Proof.
  intros Hr Hp.
  assert (Hheat : length (heat_map (new_buffers self)) = num_classes self)
    by (simpl; apply length_replicate).
  split; [split|].
  - intros (Pref & b & H) i k a region Pm Hobj Hacc.
    pose proof (object_of_source L i k a region Pm Hobj) as Hi.
    unfold assemble in H.
    pose proof (encode_sources_Ok self L _ _ _ _ _ H) as (_ & _ & Hn).
    destruct (Hn _ (new_buffers_slots self)) as [_ Hpos].
    apply encode_sources_heat in H. destruct H as [_ Hcls].
    assert (Hin : In i (seq 0 (length (anns_list L))))
      by (apply in_seq; lia).
    split.
    + eapply Hpos; eassumption.
    + rewrite <- Hheat. eapply Hcls; eassumption.
  - intros Hfit. unfold assemble.
    destruct (encode_sources_succeeds L (max_objs self)
                (seq 0 (length (anns_list L))) (P L) (new_buffers self)
                (new_buffers_slots self)) as ([Pref b] & H).
    + intros i Hi. apply in_seq in Hi. lia.
    + intros i k a region Pm _ Hobj Hacc. rewrite Hheat.
      eapply Hfit; eassumption.
    + eauto.
  - intros Hno. destruct (assemble self L) as [r|e] eqn:E.
    + exfalso. exact (Hno r eq_refl).
    + unfold assemble in E. apply encode_sources_error in E.
      rewrite E. reflexivity.
Qed.

Lemma mask_entries_zero (b : Buffers) (n : nat) (mask : Buffers -> list nat)
    (field : Encoded -> nat) :
  length (mask b) = n ->
  (forall k e, slot_at b k = Some e -> mask b !! k = Some (field e)) ->
  (forall k, k < n -> exists e, slot_at b k = Some e /\ field e = 0) ->
  mask b = replicate n 0.
Proof.
  intros Hlen Hslot Hzero. apply list_eq. intros k.
  destruct (Nat.lt_ge_cases k n) as [Hk | Hk].
  - destruct (Hzero k Hk) as (e & He & Hf).
    rewrite (Hslot k e He), Hf, lookup_replicate_2 by assumption.
    reflexivity.
  - rewrite (proj2 (lookup_ge_None _ _)) by lia.
    symmetry. apply lookup_replicate_None. assumption.
Qed.

(** X15: In a jittered sample no slot at all has regression-validity or
    flip-validity 1, and in a sample that was not flipped no slot has
    flip-validity 1: the two mask arrays are all zero. *)
Theorem masks_are_zero_arrays L Pref b :
  assemble self L = Ok (Pref, b) ->
  (affine L = true ->
   reg_mask b = replicate (max_objs self) 0 /\
   flip_mask b = replicate (max_objs self) 0 /\ valid_slots b = 0) /\
  (flipped L = false -> flip_mask b = replicate (max_objs self) 0).
Proof.
  intros H. apply assemble_Ok in H. destruct H as (Hb & Hs & _ & _).
  assert (Hcase : forall k, k < max_objs self ->
            slot_at b k = Some empty_slot \/
            exists Pm a, slot_at b k = Some (encoding self L Pm a)).
  { intros k Hk. rewrite Hs, (new_buffers_empty self k Hk).
    destruct (after_sources_cases self L (seq 0 (length (anns_list L))) k
                (Some empty_slot))
      as [-> | (i & a & region & Pm & _ & _ & _ & ->)]; eauto. }
  assert (Hreg : affine L = true ->
                 reg_mask b = replicate (max_objs self) 0).
  { intros Ha. apply mask_entries_zero with (field := e_reg_mask).
    - apply (len_reg_mask _ _ Hb).
    - intros k e He. apply (slot_at_masks b k e He).
    - intros k Hk. destruct (Hcase k Hk) as [He | (Pm & a & He)].
      + eauto.
      + eexists. split; [eassumption|].
        destruct (encoding_masks self L Pm a) as [-> _]. rewrite Ha.
        reflexivity. }
  assert (Hflip : affine L = true \/ flipped L = false ->
                  flip_mask b = replicate (max_objs self) 0).
  { intros Hor. apply mask_entries_zero with (field := e_flip_mask).
    - apply (len_flip_mask _ _ Hb).
    - intros k e He. apply (slot_at_masks b k e He).
    - intros k Hk. destruct (Hcase k Hk) as [He | (Pm & a & He)].
      + eauto.
      + eexists. split; [eassumption|].
        destruct (encoding_masks self L Pm a) as [_ ->].
        destruct Hor as [-> | ->]; [rewrite andb_false_r|]; reflexivity. }
  split.
  - intros Ha. split; [auto|]. split; [auto|].
    unfold valid_slots. rewrite (Hreg Ha). clear.
    induction (max_objs self) as [|n IH]; [reflexivity | exact IH].
  - auto.
Qed.
End AssemblyExtras.

Section ShapeExtras.
Context {X : Externals} (env : Env) (self : KITTIDataset).

(** X16: The training sample has a fixed shape whatever the number of
    annotations: the image has the network input size, which is also the
    [image_size] of the target; the target has fourteen fields; the
    heatmap has one channel per configured class and each of the eleven
    per-object fields has [max_objs] entries; the sub-pixel offsets of
    the keypoints are computed but are not a field. *)
Theorem training_target_has_fixed_shape idx s im t name s' :
  is_train self = true -> transforms self = None ->
  getitem env self idx s = (Ok (im, t, name), s') ->
  img_size im = (input_width self, input_height self) /\
  image_size t = (Qof (input_width self), Qof (input_height self)) /\
  List.map fst (extra_fields t) =
    ["hm"; "reg"; "cls_ids"; "proj_p"; "dimensions"; "locations"; "rotys";
     "trans_mat"; "P"; "reg_mask"; "flip_mask"; "reg_2d"; "p_2d_offsets";
     "p_2d_whs"]%string /\
  get_field "p_offsets" t = None /\
  exists b,
    slots (max_objs self) b /\
    length (heat_map b) = num_classes self /\
    get_field "hm" t = Some (FMatrices (heat_map b)) /\
    get_field "reg" t = Some (FMatrices (regression b)) /\
    get_field "cls_ids" t = Some (FInts (cls_ids b)) /\
    get_field "proj_p" t = Some (FPoints (proj_points b)) /\
    get_field "dimensions" t = Some (FVectors (dimensions b)) /\
    get_field "locations" t = Some (FVectors (locations b)) /\
    get_field "rotys" t = Some (FScalars (rotys b)) /\
    get_field "reg_mask" t = Some (FInts (reg_mask b)) /\
    get_field "flip_mask" t = Some (FInts (flip_mask b)) /\
    get_field "reg_2d" t = Some (FBoxes (regression_2d b)) /\
    get_field "p_2d_offsets" t = Some (FVec2s (p_2d_offsets b)) /\
    get_field "p_2d_whs" t = Some (FVec2s (p_2d_whs b)).
Proof.
  intros Ht Hhook H. unfold getitem in H.
  apply bind_Ok in H. destruct H as (L & s1 & Haug & H).
  apply lift_Ok in H. destruct H as [H ->].
  unfold finish in H. rewrite Ht in H. simpl in H.
  apply rbind_Ok in H. destruct H as ([Pref b] & Hasm & H).
  unfold run_transforms in H. rewrite Hhook in H.
  injection H as <- <- _.
  split; [reflexivity|]. split; [reflexivity|].
  split; [reflexivity|]. split; [reflexivity|].
  exists b.
  pose proof (assemble_Ok self L Pref b Hasm) as (Hb & _).
  unfold assemble in Hasm. apply encode_sources_heat in Hasm.
  destruct Hasm as [Hheat _].
  split; [assumption|].
  split; [rewrite Hheat; simpl; apply length_replicate|].
  repeat split.
Qed.
End ShapeExtras.

(** * Properties of the checkpoint listing *)

Lemma split_avoids (sep : ascii) (s : string) :
  avoids sep s -> split sep s = [s].
Proof.
  induction s as [|c rest IH]; intros Hs; [reflexivity|].
  destruct Hs as [Hne Hrest]. simpl.
  destruct (Ascii.eqb c sep) eqn:E;
    [apply Ascii.eqb_eq in E; contradiction|].
  rewrite (IH Hrest). reflexivity.
Qed.

Lemma split_first (sep : ascii) (s tail : string) :
  avoids sep s ->
  split sep (String.append s (String sep tail)) = s :: split sep tail.
Proof.
  induction s as [|c rest IH]; intros Hs.
  - simpl. rewrite Ascii.eqb_refl. reflexivity.
  - destruct Hs as [Hne Hrest]. simpl.
    destruct (Ascii.eqb c sep) eqn:E;
      [apply Ascii.eqb_eq in E; contradiction|].
    rewrite (IH Hrest). reflexivity.
Qed.

Lemma append_assoc (s t u : string) :
  String.append s (String.append t u)
  = String.append (String.append s t) u.
Proof. induction s as [|c rest IH]; simpl; congruence. Qed.

Lemma avoids_append (c : ascii) (s t : string) :
  avoids c s -> avoids c t -> avoids c (String.append s t).
Proof. induction s as [|a rest IH]; simpl; [auto | tauto]. Qed.

Lemma all_digits_avoids (c : ascii) (s : string) :
  nat_of_ascii c < 48 \/ 57 < nat_of_ascii c ->
  all_digits s -> avoids c s.
Proof.
  intros Hc. induction s as [|a rest IH]; simpl; [auto|].
  intros (H1 & H2 & Hrest). split; [|auto].
  intros ->. lia.
Qed.

Lemma all_digits_string_of_uint (d : uint) :
  all_digits (NilEmpty.string_of_uint d).
Proof.
  induction d; cbn [NilEmpty.string_of_uint all_digits]; auto;
    (split; [|split]; [vm_compute; lia | vm_compute; lia | assumption]).
Qed.

Lemma all_digits_digits_of (n : nat) : all_digits (digits_of n).
Proof.
  unfold digits_of, NilZero.string_of_uint.
  destruct (Nat.to_uint n); try apply all_digits_string_of_uint.
  vm_compute. repeat split; lia.
Qed.

Lemma all_digits_zeros_before (k : nat) (s : string) :
  all_digits s -> all_digits (zeros_before k s).
Proof.
  intros Hs. induction k as [|k IH]; [assumption|].
  cbn [zeros_before all_digits].
  split; [|split]; [vm_compute; lia | vm_compute; lia | assumption].
Qed.

Lemma zeros_before_value (k : nat) (s : string) (d : uint) :
  NilEmpty.uint_of_string s = Some d ->
  exists d',
    NilEmpty.uint_of_string (zeros_before k s) = Some d' /\
    Nat.of_uint d' = Nat.of_uint d.
Proof.
  intros Hs. induction k as [|k (d' & Hd' & Hv)]; simpl; [eauto|].
  rewrite Hd'. simpl. exists (D0 d'). split; [reflexivity|].
  rewrite <- Hv. reflexivity.
Qed.

Lemma digits_of_value (n : nat) :
  exists d,
    NilEmpty.uint_of_string (digits_of n) = Some d /\ Nat.of_uint d = n.
Proof.
  unfold digits_of, NilZero.string_of_uint.
  pose proof (Unsigned.of_to n) as Hn.
  destruct (Nat.to_uint n) as [|d|d|d|d|d|d|d|d|d|d] eqn:E;
    try (eexists; split; [apply NilEmpty.usu | exact Hn]).
  exists (D0 Nil). split; [reflexivity | exact Hn].
Qed.

Lemma zeros_before_not_empty (k : nat) (s : string) :
  s <> EmptyString -> zeros_before k s <> EmptyString.
Proof. destruct k; simpl; [auto | discriminate]. Qed.

Lemma digits_of_not_empty (n : nat) : digits_of n <> EmptyString.
Proof.
  unfold digits_of, NilZero.string_of_uint.
  destruct (Nat.to_uint n); simpl; discriminate.
Qed.

Lemma contains_append (sub s t : string) :
  contains sub t = true -> contains sub (String.append s t) = true.
Proof.
  intros Ht. induction s as [|a rest IH]; [exact Ht|].
  cbn [String.append contains]. rewrite IH. apply orb_true_r.
Qed.

Lemma contains_avoids (c : ascii) (sub' s : string) :
  avoids c s -> contains (String c sub') s = false.
Proof.
  induction s as [|a rest IH]; intros Hs; [reflexivity|].
  destruct Hs as [Hne Hrest].
  cbn [contains String.prefix].
  destruct (ascii_dec c a) as [E|_]; [congruence|].
  rewrite (IH Hrest). reflexivity.
Qed.

Section CheckpointExtras.
Context (int_of_str : string -> option Z).

Lemma format_07d_digits (n : nat) :
  all_digits (format_07d (Z.of_nat n)) /\
  format_07d (Z.of_nat n) <> EmptyString /\
  exists d,
    NilEmpty.uint_of_string (format_07d (Z.of_nat n)) = Some d /\
    Nat.of_uint d = n.
Proof.
  unfold format_07d.
  replace (Z.of_nat n <? 0)%Z with false by (symmetry; apply Z.ltb_ge; lia).
  rewrite Nat2Z.id. unfold zero_pad.
  split; [apply all_digits_zeros_before, all_digits_digits_of|].
  split; [apply zeros_before_not_empty, digits_of_not_empty|].
  destruct (digits_of_value n) as (d & Hd & Hn).
  destruct (zeros_before_value (7 - String.length (digits_of n)) _ d Hd)
    as (d' & Hd' & Hv).
  exists d'. split; [assumption | congruence].
Qed.

Lemma model_name_is_kept (n : nat) :
  passed (model_name_of (Z.of_nat n)) = false.
Proof.
  destruct (format_07d_digits n) as (Hd & _ & _).
  unfold passed, model_name_of.
  rewrite contains_append
    by (apply contains_append; reflexivity).
  rewrite contains_avoids; [reflexivity|].
  apply avoids_append; [simpl; repeat split; discriminate|].
  apply avoids_append; [|simpl; repeat split; discriminate].
  apply all_digits_avoids; [right; vm_compute; lia | assumption].
Qed.

Lemma checkpoint_iteration_of_model_name (n : nat) :
  reads_digits int_of_str ->
  checkpoint_iteration int_of_str (model_name_of (Z.of_nat n))
    = Ok (Z.of_nat n).
Proof.
  intros Hint.
  destruct (format_07d_digits n) as (Hd & Hne & d & Hv & Hn).
  unfold checkpoint_iteration, model_name_of.
  assert (Hstem : split "." (String.append "model_"
                    (String.append (format_07d (Z.of_nat n)) ".pth"))
                  = [String.append "model_" (format_07d (Z.of_nat n));
                     "pth"%string]).
  { change (String.append (format_07d (Z.of_nat n)) ".pth")
      with (String.append (format_07d (Z.of_nat n))
              (String "."%char "pth")).
    rewrite append_assoc.
    rewrite split_first; [reflexivity|].
    apply avoids_append; [simpl; repeat split; discriminate|].
    apply all_digits_avoids; [left; vm_compute; lia | assumption]. }
  assert (Hpiece : split "_" (String.append "model_"
                               (format_07d (Z.of_nat n)))
                   = ["model"%string; format_07d (Z.of_nat n)]).
  { change (String.append "model_" (format_07d (Z.of_nat n)))
      with (String.append "model"
              (String "_"%char (format_07d (Z.of_nat n)))).
    rewrite split_first by (simpl; repeat split; discriminate).
    rewrite split_avoids
      by (apply all_digits_avoids; [right; vm_compute; lia | assumption]).
    reflexivity. }
  rewrite Hstem.
  cbn -[split String.append format_07d].
  rewrite Hpiece.
  cbn -[split String.append format_07d].
  unfold py_int. rewrite (Hint _ d Hne Hv), Hn. reflexivity.
Qed.

Lemma iteration_list_of_model_names (ns : list nat) :
  reads_digits int_of_str ->
  iteration_list int_of_str
    (List.map (fun n => model_name_of (Z.of_nat n)) ns)
  = Ok (List.map Z.of_nat ns).
Proof.
  intros Hint. induction ns as [|n rest IH]; [reflexivity|].
  cbn [List.map iteration_list].
  rewrite model_name_is_kept, (checkpoint_iteration_of_model_name n Hint), IH.
  reflexivity.
Qed.

(** X17: Where [int] reads decimal digits: a directory that holds
    checkpoints under the names the script itself builds,
    [model_<iteration on 7 digits>.pth], has every one of them listed
    with its iteration (the name is read back to the number it was built
    from), and the script loads them in ascending order of iteration. *)
Theorem own_checkpoint_names_are_read_back (ns : list nat) :
  reads_digits int_of_str ->
  iteration_list int_of_str
    (List.map (fun n => model_name_of (Z.of_nat n)) ns)
    = Ok (List.map Z.of_nat ns) /\
  checkpoints_to_evaluate int_of_str
    (List.map (fun n => model_name_of (Z.of_nat n)) ns)
    = Ok (List.map model_name_of
            (merge_sort Z.le (List.map Z.of_nat ns))).
Proof.
  intros Hint. split; [apply iteration_list_of_model_names; assumption|].
  unfold checkpoints_to_evaluate, sorted_iterations.
  rewrite (iteration_list_of_model_names ns Hint). reflexivity.
Qed.

(** X18: The names without [pth] and the names with [final] take no part:
    the listing is that of the other names alone. *)
Theorem passed_names_take_no_part (names : list string) :
  iteration_list int_of_str names
  = iteration_list int_of_str
      (List.filter (fun name => negb (passed name)) names).
Proof.
  induction names as [|name rest IH]; [reflexivity|].
  cbn [iteration_list List.filter].
  destruct (passed name) eqn:E; cbn [negb]; [exact IH|].
  cbn [iteration_list]. rewrite E, IH. reflexivity.
Qed.

(** X19: A name that holds [pth], does not hold [final] and has no
    underscore stops the listing with [IndexError], whatever the other
    names are: there is no second piece to read the iteration from. *)
Theorem name_without_underscore_stops_the_listing name before after :
  passed name = false -> avoids "_"%char name ->
  Forall (fun n => passed n = true) before ->
  iteration_list int_of_str (before ++ name :: after) = Raise IndexError.
Proof.
  intros Hkept Havoid Hbefore.
  induction Hbefore as [|n before Hn _ IH]; simpl.
  - rewrite Hkept. unfold checkpoint_iteration.
    assert (Hstem : exists stem pieces,
              split "." name = stem :: pieces /\ avoids "_"%char stem).
    { clear Hkept. induction name as [|c rest IHn].
      - exists EmptyString, []. split; [reflexivity | exact I].
      - destruct Havoid as [Hc Hrest]. simpl.
        destruct (Ascii.eqb c ".").
        + exists EmptyString, (split "." rest). split; [reflexivity|exact I].
        + destruct (IHn Hrest) as (stem & pieces & -> & Hs).
          exists (String c stem), pieces. split; [reflexivity|].
          split; assumption. }
    destruct Hstem as (stem & pieces & -> & Hs).
    simpl. rewrite (split_avoids _ _ Hs). reflexivity.
  - rewrite Hn. exact IH.
Qed.
Lemma iteration_list_cons name rest l :
  iteration_list int_of_str (name :: rest) = Ok l ->
  (passed name = true /\ iteration_list int_of_str rest = Ok l) \/
  (exists i l0,
     passed name = false /\
     checkpoint_iteration int_of_str name = Ok i /\
     iteration_list int_of_str rest = Ok l0 /\ l = i :: l0).
Proof.
  cbn [iteration_list]. destruct (passed name); [left; auto|].
  intros H. right.
  destruct (checkpoint_iteration int_of_str name) as [i|e];
    [|discriminate].
  cbn [rbind] in H.
  destruct (iteration_list int_of_str rest) as [l0|e]; [|discriminate].
  cbn [rbind] in H. injection H as <-. eauto 10.
Qed.

Lemma iteration_list_permutation names names' :
  Permutation names names' ->
  forall l, iteration_list int_of_str names = Ok l ->
  exists l', iteration_list int_of_str names' = Ok l' /\ Permutation l l'.
Proof.
  induction 1 as [|x a b _ IH|x y a|a b c _ IH1 _ IH2]; intros l Hl.
  - exists l. split; [assumption | reflexivity].
  - apply iteration_list_cons in Hl
      as [(Hp & Hl)|(i & l0 & Hp & Hi & Hl & ->)];
      destruct (IH _ Hl) as (l' & Hl' & Hperm);
      cbn [iteration_list]; rewrite Hp.
    + eauto.
    + rewrite Hi, Hl'. cbn [rbind]. eexists. split; [reflexivity|].
      constructor. assumption.
  - apply iteration_list_cons in Hl
      as [(Hy & Hl)|(i & l0 & Hy & Hi & Hl & ->)];
      apply iteration_list_cons in Hl
      as [(Hx & Hl)|(j & l1 & Hx & Hj & Hl & ->)];
      cbn [iteration_list]; rewrite Hx, Hy, ?Hi, ?Hj, Hl; cbn [rbind];
      eexists; (split; [reflexivity|]);
      first [reflexivity | apply perm_swap].
  - destruct (IH1 _ Hl) as (l1 & Hl1 & Hp1).
    destruct (IH2 _ Hl1) as (l2 & Hl2 & Hp2).
    exists l2. split; [assumption | etransitivity; eassumption].
Qed.

Lemma merge_sort_permutation (l l' : list Z) :
  Permutation l l' -> merge_sort Z.le l = merge_sort Z.le l'.
Proof.
  intros Hperm.
  apply (Sorted_unique Z.le).
  - apply (Sorted_merge_sort Z.le).
  - apply (Sorted_merge_sort Z.le).
  - rewrite !merge_sort_Permutation. assumption.
Qed.

(** X20: The order in which the directory listing returns the names does not
    matter: when the listing succeeds on the names in one order, it
    succeeds on them in any other order, and the checkpoints are loaded
    in the same order, that of ascending iterations. *)
Theorem listing_order_does_not_matter names names' loaded :
  Permutation names names' ->
  checkpoints_to_evaluate int_of_str names = Ok loaded ->
  checkpoints_to_evaluate int_of_str names' = Ok loaded /\
  exists iterations,
    loaded = List.map model_name_of iterations /\
    Sorted Z.le iterations.
Proof.
  intros Hperm. unfold checkpoints_to_evaluate, sorted_iterations.
  destruct (iteration_list int_of_str names) as [l|e] eqn:El;
    [|discriminate].
  destruct (iteration_list_permutation _ _ Hperm l El)
    as (l' & -> & Hl).
  cbn [rbind]. intros [= <-].
  rewrite (merge_sort_permutation _ _ Hl).
  split; [reflexivity|].
  exists (merge_sort Z.le l'). split; [reflexivity|].
  apply (Sorted_merge_sort Z.le).
Qed.
End CheckpointExtras.

(** * The further properties on the small dataset *)

Section FurtherRuns.
Import Fixture.
Existing Instance stand_ins.

Lemma decimal_int_reads_digits : reads_digits decimal_int.
Proof.
  intros text d Hne Hd. destruct text as [|c rest]; [contradiction|].
  unfold decimal_int. rewrite Hd. reflexivity.
Qed.

(** X1 at a concrete input. *)
Lemma init_lists_one_entry_per_line_witness :
  let env := quiet in
  let cfg := config 3 0 0 0 in
  let train := true in
  let ds := dataset 3 0 0 0 in
  fst (init env cfg train None start) = Ok ds /\
  exists lines,
    In (split_of cfg train) known_splits /\
    text_lines env imagesets_dir (String.append (split_of cfg train) ".txt")
      = Some lines /\
    len ds = length lines /\
    length (image_files ds) = len ds /\
    length (label_files ds) = len ds /\
    (forall idx,
       idx < len ds <->
       (exists f, label_files ds !! idx = Some f) /\
       (exists g, image_files ds !! idx = Some g)) /\
    is_train ds = train /\
    (train = false ->
     flip_prob ds = 0%Q /\ aug_prob ds = 0%Q /\ gaussian_prob ds = 0%Q /\
     color_prob ds = 0%Q /\ right_prob ds = 0%Q /\ mosaic_prob ds = 0%Q).
Proof.
  cbv zeta. split; [vm_compute; reflexivity|].
  apply (init_lists_one_entry_per_line quiet (config 3 0 0 0) true None
           start (dataset 3 0 0 0)
           (snd (init quiet (config 3 0 0 0) true None start))).
  vm_compute. reflexivity.
Defined.

(** X2 at a concrete input. *)
Lemma init_names_of_plain_lines_witness :
  let ds := dataset 3 0 0 0 in
  let idx := 1 in
  let base := "000001"%string in
  fst (init quiet (config 3 0 0 0) true None start) = Ok ds /\
  image_files ds !! idx = Some (String.append base ".png") /\
  label_files ds !! idx = Some (String.append base ".txt") /\
  replace ".txt" EmptyString (String.append base ".txt") = base.
Proof.
  cbv zeta. split; [vm_compute; reflexivity|].
  eapply (init_names_of_plain_lines quiet (config 3 0 0 0) true None start
            (dataset 3 0 0 0)
            (snd (init quiet (config 3 0 0 0) true None start))
            _ 1 "000001"%string).
  - vm_compute. reflexivity.
  - reflexivity.
  - reflexivity.
  - vm_compute. repeat split; discriminate.
  - vm_compute. repeat split; discriminate.
Defined.

(** X3 at a concrete input. *)
Lemma init_rejects_unknown_split_witness :
  init quiet odd_config true None start = (Raise ValueError, start).
Proof.
  apply init_rejects_unknown_split.
  simpl. intros H.
  repeat (destruct H as [H|H]; [discriminate H|]). exact H.
Defined.

(** X4 at a concrete input: frame 000004 has no label file. *)
Lemma inference_loader_needs_no_labels_witness :
  labels "000004.txt" = None /\
  exists P2 P3,
    load_annotations quiet testing 3 start
      = (Ok ([], P2, P3), log_open calib_dir "000004.txt" start).
Proof.
  split; [reflexivity|].
  eexists. eexists.
  eapply (inference_loader_needs_no_labels quiet testing 3 start
            "000004.txt" (calib_rows "0" "0")).
  - reflexivity.
  - reflexivity.
  - reflexivity.
  - vm_compute. reflexivity.
Defined.

(** X6 at a concrete input: the rows of frame 000000. *)
Lemma annotations_are_the_detectable_rows_witness :
  exists rows anns,
    labels "000000.txt" = Some rows /\
    read_annotations (classes plain) rows = Ok anns /\
    List.map a_class anns
      = List.filter (fun type => existsb (String.eqb type) (classes plain))
          (row_types rows) /\
    Forall (fun a =>
              dict_get (a_class a) TYPE_ID_CONVERSION = Ok (a_label a) /\
              a_label a < 3) anns.
Proof.
  eexists. eexists.
  split; [reflexivity|].
  split; [vm_compute; reflexivity|].
  apply (annotations_are_the_detectable_rows plain).
  vm_compute. reflexivity.
Defined.

(** X7 at a concrete input. *)
Lemma index_out_of_range_witness :
  len plain = 3 /\
  getitem quiet plain 3 start = (Raise IndexError, start).
Proof.
  split; [reflexivity|].
  apply index_out_of_range. reflexivity.
Defined.

(** X8 at a concrete input. *)
Lemma inference_sample_witness :
  let env := quiet in
  let self := testing in
  let idx := 0 in
  let s := start in
  let im := fst (fst (sample_of env self idx)) in
  let t := snd (fst (sample_of env self idx)) in
  let name := snd (sample_of env self idx) in
  let s' := snd (getitem env self idx s) in
  exists f g anns P2 P3 w h,
    label_files self !! idx = Some f /\
    image_files self !! idx = Some g /\
    load_annotations env self idx s
      = (Ok (anns, P2, P3), log_open calib_dir f s) /\
    image_size_at env image_dir g = Some (w, h) /\
    rng_pos s' = rng_pos s /\
    opened s' = opened s ++ [Opened calib_dir f; Opened image_dir g] /\
    name = replace ".txt" EmptyString f /\
    im = {| img_dir := image_dir; img_name := g;
            img_size := (input_width self, input_height self);
            img_ops :=
              [AffineResample
                 (get_transfrom_matrix
                    (((Qof w / 2)%Q, (Qof h / 2)%Q), (Qof w, Qof h))
                    (input_width self, input_height self))] |} /\
    image_size t = (Qof w, Qof h) /\
    pl_is_train t = false /\
    extra_fields t =
      [("trans_mat"%string,
        FMatrix (get_transfrom_matrix
                   (((Qof w / 2)%Q, (Qof h / 2)%Q), (Qof w, Qof h))
                   (output_width self, output_height self)));
       ("P"%string, FMatrix (P2 ++ [[0; 0; 0; 1]]%Q))].
Proof.
  cbv zeta.
  apply (inference_sample quiet testing 0 start).
  - reflexivity.
  - reflexivity.
  - vm_compute. reflexivity.
Defined.

(** X9 at a concrete input. *)
Lemma sources_are_consistent_witness :
  let self := pairs in
  let L := pairs_L in
  (length (anns_list L) = 1 \/ length (anns_list L) = 2) /\
  length (region_list L) = length (anns_list L) /\
  length (P_list L) = length (anns_list L) /\
  (forall ref, In ref (P_list L) -> is_3x4 (array_at (arrays L) ref)) /\
  (flipped L = true -> use_left L = true) /\
  (length (anns_list L) = 2 ->
   is_train self = true /\ flipped L = false /\ affine L = false).
Proof.
  cbv zeta.
  apply (sources_are_consistent (pairing 1) pairs 0 start pairs_L
           (snd (augment (pairing 1) pairs 0 start))).
  vm_compute. reflexivity.
Defined.

(** X10 at a concrete input. *)
Lemma number_of_random_draws_witness :
  let self := pairs in
  let L := pairs_L in
  let s := start in
  let s' := snd (augment (pairing 1) pairs 0 s) in
  rng_pos s' =
    rng_pos s + (if is_train self then 5 else 0)
    + (if affine L then 3 else 0)
    + (if mosaic_guard self L
       then (if length (anns_list L) =? 2 then 2 else 1)
       else 0).
Proof.
  cbv zeta.
  apply (number_of_random_draws (pairing 1) pairs 0 start pairs_L).
  vm_compute. reflexivity.
Defined.



(** X14 at a concrete input. *)
Lemma assembly_succeeds_iff_witness :
  let self := plain in
  let L := plain_L in
  ((exists Pref b, assemble self L = Ok (Pref, b)) <->
   (forall i k a region Pm,
      object_of L i k a region Pm ->
      accepted self L region Pm a = true ->
      k < max_objs self /\ a_label a < num_classes self)) /\
  ((forall r, assemble self L <> Ok r) ->
   assemble self L = Raise IndexError).
Proof.
  cbv zeta.
  apply (assembly_succeeds_iff plain plain_L); reflexivity.
Defined.

(** X15 at a concrete input. *)
Lemma masks_are_zero_arrays_witness :
  let self := shaking in
  let L := locals_of jittering shaking 0 in
  let b := buffers_of self L in
  affine L = true /\
  (affine L = true ->
   reg_mask b = replicate (max_objs self) 0 /\
   flip_mask b = replicate (max_objs self) 0 /\ valid_slots b = 0) /\
  (flipped L = false -> flip_mask b = replicate (max_objs self) 0).
Proof.
  cbv zeta.
  split; [vm_compute; reflexivity|].
  apply (masks_are_zero_arrays shaking (locals_of jittering shaking 0) 0).
  vm_compute. reflexivity.
Defined.

(** X16 at a concrete input. *)
Lemma training_target_has_fixed_shape_witness :
  let env := quiet in
  let self := plain in
  let im := fst (fst (sample_of env self 0)) in
  let t := snd (fst (sample_of env self 0)) in
  img_size im = (input_width self, input_height self) /\
  image_size t = (Qof (input_width self), Qof (input_height self)) /\
  List.map fst (extra_fields t) =
    ["hm"; "reg"; "cls_ids"; "proj_p"; "dimensions"; "locations"; "rotys";
     "trans_mat"; "P"; "reg_mask"; "flip_mask"; "reg_2d"; "p_2d_offsets";
     "p_2d_whs"]%string /\
  get_field "p_offsets" t = None /\
  exists b,
    slots (max_objs self) b /\
    length (heat_map b) = num_classes self /\
    get_field "hm" t = Some (FMatrices (heat_map b)) /\
    get_field "reg" t = Some (FMatrices (regression b)) /\
    get_field "cls_ids" t = Some (FInts (cls_ids b)) /\
    get_field "proj_p" t = Some (FPoints (proj_points b)) /\
    get_field "dimensions" t = Some (FVectors (dimensions b)) /\
    get_field "locations" t = Some (FVectors (locations b)) /\
    get_field "rotys" t = Some (FScalars (rotys b)) /\
    get_field "reg_mask" t = Some (FInts (reg_mask b)) /\
    get_field "flip_mask" t = Some (FInts (flip_mask b)) /\
    get_field "reg_2d" t = Some (FBoxes (regression_2d b)) /\
    get_field "p_2d_offsets" t = Some (FVec2s (p_2d_offsets b)) /\
    get_field "p_2d_whs" t = Some (FVec2s (p_2d_whs b)).
Proof.
  cbv zeta.
  apply (training_target_has_fixed_shape quiet plain 0 start
           (fst (fst (sample_of quiet plain 0)))
           (snd (fst (sample_of quiet plain 0)))
           (snd (sample_of quiet plain 0))
           (snd (getitem quiet plain 0 start))).
  - reflexivity.
  - reflexivity.
  - vm_compute. reflexivity.
Defined.

(** X17 at a concrete input. *)
Lemma own_checkpoint_names_are_read_back_witness :
  let ns := [300; 100] in
  iteration_list decimal_int
    (List.map (fun n => model_name_of (Z.of_nat n)) ns)
    = Ok (List.map Z.of_nat ns) /\
  checkpoints_to_evaluate decimal_int
    (List.map (fun n => model_name_of (Z.of_nat n)) ns)
    = Ok (List.map model_name_of
            (merge_sort Z.le (List.map Z.of_nat ns))).
Proof.
  exact (own_checkpoint_names_are_read_back decimal_int [300; 100]
           decimal_int_reads_digits).
Defined.

(** X19 at a concrete input. *)
Lemma name_without_underscore_stops_the_listing_witness :
  iteration_list decimal_int
    (["log.txt"%string] ++
     "latest.pth"%string :: ["model_0000100.pth"%string])
  = Raise IndexError.
Proof.
  apply name_without_underscore_stops_the_listing.
  - reflexivity.
  - vm_compute. repeat split; discriminate.
  - repeat constructor.
Defined.

(** X20 at a concrete input: a listing and the same names reversed. *)
Lemma listing_order_does_not_matter_witness :
  let loaded := ["model_0000100.pth"; "model_0000300.pth"]%string in
  checkpoints_to_evaluate decimal_int listing = Ok loaded /\
  checkpoints_to_evaluate decimal_int (rev listing) = Ok loaded /\
  exists iterations,
    loaded = List.map model_name_of iterations /\
    Sorted Z.le iterations.
Proof.
  cbv zeta.
  split; [vm_compute; reflexivity|].
  apply (listing_order_does_not_matter decimal_int listing (rev listing)).
  - apply Permutation_rev.
  - vm_compute. reflexivity.
Defined.

End FurtherRuns.
